(** * The training orchestrator of train.py

    A shallow embedding of the control flow of [main], [train], [validate],
    [get_training_stats] and [get_valid_stats].  The modules that train.py
    imports (trainer, loggings.metrics, loggings.progress_bar,
    checkpoint_utils, torch.distributed) are collaborators: their behaviour
    is an interface the orchestrator is parametrised by, and the calls the
    orchestrator makes to them are recorded as a trace of events.

    - [main] (train.py 311-323): [main_loop], [main]
    - [train] (325-392): [train_iteration], [train_loop], [train]
    - [get_training_stats] (394-396): [get_training_stats]
    - [validate] (398-447): [valid_loop], [validate]
    - [get_valid_stats] (449-468): [get_valid_stats] *)

From Stdlib Require Import ZArith QArith List Lia.
From stdpp Require Import base option list gmap strings.

Local Open Scope string_scope.
Local Open Scope Z_scope.
Local Open Scope list_scope.

(** ** Python values and exceptions *)

Module Py.

(** The values a statistic can hold: a plain number (Python int or float,
    compared as a rational) or a one-dimensional tensor / ndarray of
    numbers. *)
Inductive pyval : Type :=
| PNum (q : Q)
| PTensor (l : list Q).

Inductive exn : Type :=
| KeyError (key : string)
| TypeError (what : string)
| AttributeError (name : string)
| IndexError
| RuntimeError (what : string)
| UnboundLocalError (var : string)
| ZeroDivisionError.

(** What a call does: return a value or raise. *)
Inductive Outcome (A : Type) : Type :=
| Returns (a : A)
| Raises (e : exn).
Arguments Returns {A} a.
Arguments Raises {A} e.

Definition is_Returns {A} (o : Outcome A) : bool :=
  match o with Returns _ => true | Raises _ => false end.

(** [a > b] on numbers. *)
Definition Qgtb (a b : Q) : bool := negb (Qle_bool a b).

(** The truth value of [lhs > rhs].  Against a tensor the comparison is
    elementwise and its truth value exists for a single element only. *)
Definition py_gt (lhs rhs : pyval) : Outcome bool :=
  match lhs, rhs with
  | PNum a, PNum b => Returns (Qgtb a b)
  | PNum a, PTensor [b] => Returns (Qgtb a b)
  | PTensor [a], PNum b => Returns (Qgtb a b)
  | PTensor [a], PTensor [b] => Returns (Qgtb a b)
  | _, _ => Raises (RuntimeError "Boolean value of Tensor is ambiguous")
  end.

(** The builtin [max(first, second)]: the first argument is kept unless
    the second is strictly greater. *)
Definition py_max (first second : pyval) : Outcome pyval :=
  match py_gt second first with
  | Returns true => Returns second
  | Returns false => Returns first
  | Raises e => Raises e
  end.

(** [v[0]]. *)
Definition subscript0 (v : pyval) : Outcome pyval :=
  match v with
  | PNum _ => Raises (TypeError "object is not subscriptable")
  | PTensor [] => Raises IndexError
  | PTensor (q :: _) => Returns (PNum q)
  end.

Definition subscriptable (v : pyval) : bool :=
  match v with PNum _ => false | PTensor _ => true end.

End Py.
Export Py.

(** A stats mapping: a Python dict with string keys. *)
Abbreviation Stats := (gmap string pyval).

(** [argparse.Namespace]: the fields the orchestrator and the checkpoint
    manager read. *)
Record Args : Type := {
  max_epoch : Z;
  log_interval : Z;
  save_interval : Z;
  distributed_world_size : Z;
  distributed_rank : Z
}.

(** ** Collaborators

    [X] is the state of everything outside train.py (trainer, metrics,
    checkpoint directory, process group).  A [Sample] is what the
    iterators yield. *)
Class Collaborators (X Sample : Type) : Type := {
  (* trainer *)
  iterator : X -> list Sample;
  valid_iterator : X -> list Sample;
  begin_epoch : Z -> X -> X;
  train_step : Sample -> X -> option Stats * X;
  get_num_updates : X -> Z;
  begin_valid_epoch : Z -> X -> X;
  valid_step : Sample -> X -> X;
  has_post_validate : X -> bool;
  post_validate : Stats -> Z -> X -> Stats * X;
  lr_step : Z -> pyval -> X -> pyval * X;
  (* loggings.metrics *)
  aggregate_enter : string -> X -> X;
  aggregate_exit : string -> X -> X;
  aggregate_root_enter : X -> X;
  aggregate_root_exit : X -> X;
  get_smoothed_values : string -> X -> Stats;
  agg_get_smoothed_values : X -> Stats;
  reset_meters : string -> X -> X;
  wall : X -> pyval;
  (* checkpoint_utils *)
  save_checkpoint : Args -> Z -> pyval -> X -> X;
  (* torch.distributed *)
  is_initialized : X -> bool;
  barrier : X -> X
}.

(** ** Events: the calls the orchestrator makes *)
Inductive Event : Type :=
| EBeginEpoch (epoch : Z)
| ETrainStep (i : nat) (skipped : bool)
| EProgressLog (tag : string) (step : Z)
| EResetMeters (name : string)
| EValidate (epoch : Z)
| EValidStep (i : nat)
| EPostValidate
| EProgressPrint (tag : string) (step : Z)
| ESaveCheckpoint (epoch : Z) (valid_loss : pyval)
| EBarrier
| ELrStep (epoch : Z) (valid_loss : pyval)
| EDoneTraining.

(** ** The process *)

(** [best] is the attribute [get_valid_stats.best]: [None] while the
    function object has no such attribute. *)
Record Proc (X : Type) : Type := {
  ext : X;
  best : option pyval
}.
Arguments ext {X} p.
Arguments best {X} p.

(** A computation reads and updates the process, emits events and
    returns or raises. *)
Definition M (X A : Type) : Type :=
  Proc X -> Outcome A * Proc X * list Event.

Definition outcome {X A} (r : Outcome A * Proc X * list Event) : Outcome A :=
  fst (fst r).
Definition final {X A} (r : Outcome A * Proc X * list Event) : Proc X :=
  snd (fst r).
Definition events {X A} (r : Outcome A * Proc X * list Event) : list Event :=
  snd r.

Section Monad.
Context {X : Type}.

Definition ret {A} (a : A) : M X A := fun p => (Returns a, p, []).

Definition bind {A B} (m : M X A) (k : A -> M X B) : M X B :=
  fun p =>
    match m p with
    | (Returns a, p1, e1) =>
        match k a p1 with
        | (r, p2, e2) => (r, p2, e1 ++ e2)
        end
    | (Raises e, p1, e1) => (Raises e, p1, e1)
    end.

Definition raise {A} (e : exn) : M X A := fun p => (Raises e, p, []).

Definition emit (ev : Event) : M X unit := fun p => (Returns tt, p, [ev]).

(** A collaborator call that returns a value and may change [X]. *)
Definition call {A} (f : X -> A * X) : M X A :=
  fun p =>
    match f (ext p) with
    | (a, x) => (Returns a, {| ext := x; best := best p |}, [])
    end.

Definition update (f : X -> X) : M X unit := call (fun x => (tt, f x)).
Definition query {A} (f : X -> A) : M X A := call (fun x => (f x, x)).

Definition lift {A} (o : Outcome A) : M X A :=
  match o with Returns a => ret a | Raises e => raise e end.

(** [hasattr], [getattr] and assignment of [get_valid_stats.best]. *)
Definition hasattr_best : M X bool :=
  fun p => (Returns (bool_decide (is_Some (best p))), p, []).
Definition getattr_best : M X pyval :=
  fun p =>
    match best p with
    | Some v => (Returns v, p, [])
    | None => (Raises (AttributeError "best"), p, [])
    end.
Definition setattr_best (v : pyval) : M X unit :=
  fun p => (Returns tt, {| ext := ext p; best := Some v |}, []).

(** [d[key]] on a dict. *)
Definition getitem (d : Stats) (key : string) : M X pyval :=
  match d !! key with
  | Some v => ret v
  | None => raise (KeyError key)
  end.

(** [with ctx: body]: the exit runs whether [body] returns or raises. *)
Definition with_ctx {A} (enter exit : M X unit) (body : M X A) : M X A :=
  fun p =>
    match enter p with
    | (Returns _, p1, e1) =>
        match body p1 with
        | (r, p2, e2) =>
            match exit p2 with
            | (Returns _, p3, e3) => (r, p3, e1 ++ e2 ++ e3)
            | (Raises e, p3, e3) => (Raises e, p3, e1 ++ e2 ++ e3)
            end
        end
    | (Raises e, p1, e1) => (Raises e, p1, e1)
    end.

End Monad.

#[global] Instance M_ret {X} : MRet (M X) := @ret X.
#[global] Instance M_bind {X} : MBind (M X) := fun A B k m => bind m k.

(** ** train.py *)
Section Orchestrator.
Context {X Sample : Type} `{!Collaborators X Sample}.

(** [metrics.aggregate(name)] as a context manager (train.py 325 and
    359). *)
Definition aggregate {A} (name : string) (body : M X A) : M X A :=
  with_ctx (update (aggregate_enter name)) (update (aggregate_exit name))
           body.

(** [metrics.aggregate(new_root=True) as agg] (train.py 431). *)
Definition aggregate_new_root {A} (body : M X A) : M X A :=
  with_ctx (update aggregate_root_enter) (update aggregate_root_exit) body.

(** [get_training_stats] (train.py 394-396). *)
Definition get_training_stats (stats : Stats) : M X Stats :=
  w ← query wall;
  let stats := <["wall" := w]> stats in
  mret stats.

(** [get_valid_stats] (train.py 449-468); [max(stats["auroc"],
    prev_best)] looks the key up before it compares. *)
Definition get_valid_stats (args : Args) (stats : Stats) : M X Stats :=
  n ← query get_num_updates;
  let stats := <["num_updates" := PNum (inject_Z n)]> stats in
  has ← hasattr_best;
  (if negb has then setattr_best (PNum 0) else mret tt);;
  prev_best ← getattr_best;
  auroc ← getitem stats "auroc";
  b ← lift (py_max auroc prev_best);
  setattr_best b;;
  let stats := <["best_auroc" := b]> stats in
  mret stats.

(** [for i, sample in enumerate(progress): trainer.valid_step(sample)]
    (train.py 432-433). *)
Fixpoint valid_loop (i : nat) (samples : list Sample) : M X unit :=
  match samples with
  | [] => mret tt
  | sample :: rest =>
      emit (EValidStep i);;
      update (valid_step sample);;
      valid_loop (S i) rest
  end.

(** [validate] (train.py 398-447); [post_validate] is handed the [stats]
    dict itself and what it leaves in it is what is read afterwards. *)
Definition validate (args : Args) (epoch : Z) : M X pyval :=
  emit (EValidate epoch);;
  update (begin_valid_epoch epoch);;
  progress ← query valid_iterator;
  aggregate_new_root (valid_loop 0 progress);;
  smoothed ← query agg_get_smoothed_values;
  stats ← get_valid_stats args smoothed;
  has ← query has_post_validate;
  stats ← (if has : bool
           then n ← query get_num_updates;
                emit EPostValidate;;
                call (post_validate stats n)
           else mret stats);
  n ← query get_num_updates;
  emit (EProgressPrint "valid" n);;
  getitem stats "auroc".

(** The local variables of [train] that the loop assigns; [valid_loss]
    is [None] while the name is unbound. *)
Record Locals : Type := {
  loc_num_updates : Z;
  loc_valid_loss : option pyval
}.

(** [num_updates % args.log_interval == 0]. *)
Definition mod_is_zero (n d : Z) : M X bool :=
  if d =? 0 then raise ZeroDivisionError else mret (n mod d =? 0).

(** [log_output is None]: the step was skipped (OOM, overflow, ...). *)
Definition is_skip (log_output : option Stats) : bool :=
  match log_output with None => true | Some _ => false end.

(** The body of [for i, samples in enumerate(progress)] (train.py
    358-383). *)
Definition train_iteration (args : Args) (epoch : Z) (i : nat)
    (samples : Sample) (loc : Locals) : M X Locals :=
  log_output ← aggregate "train_inner"
                 (out ← call (train_step samples);
                  emit (ETrainStep i (is_skip out));;
                  mret out);
  match log_output with
  | Some _ =>
      num_updates ← query get_num_updates;
      due ← mod_is_zero num_updates (log_interval args);
      (if due : bool
       then smoothed ← query (get_smoothed_values "train_inner");
            stats ← get_training_stats smoothed;
            emit (EProgressLog "train_inner" num_updates);;
            update (reset_meters "train_inner");;
            emit (EResetMeters "train_inner")
       else mret tt);;
      valid_loss ← validate args epoch;
      update (save_checkpoint args epoch valid_loss);;
      emit (ESaveCheckpoint epoch valid_loss);;
      initialized ← query is_initialized;
      (if initialized : bool then update barrier;; emit EBarrier
       else mret tt);;
      mret {| loc_num_updates := num_updates;
              loc_valid_loss := Some valid_loss |}
  | None => mret loc
  end.

(** The [for] loop of [train] from index [i] on. *)
Fixpoint train_loop (args : Args) (epoch : Z) (i : nat)
    (progress : list Sample) (loc : Locals) : M X Locals :=
  match progress with
  | [] => mret loc
  | samples :: rest =>
      loc ← train_iteration args epoch i samples loc;
      train_loop args epoch (S i) rest loc
  end.

(** [train] (train.py 325-392), run inside the "train" context of its
    decorator; [return valid_loss] raises when the name is unbound. *)
Definition train (args : Args) (epoch : Z) : M X pyval :=
  aggregate "train"
    (progress ← query iterator;
     update (begin_epoch epoch);;
     emit (EBeginEpoch epoch);;
     num_updates ← query get_num_updates;
     loc ← train_loop args epoch 0 progress
             {| loc_num_updates := num_updates; loc_valid_loss := None |};
     smoothed ← query (get_smoothed_values "train");
     stats ← get_training_stats smoothed;
     emit (EProgressPrint "train" (loc_num_updates loc));;
     update (reset_meters "train");;
     emit (EResetMeters "train");;
     match loc_valid_loss loc with
     | Some v => mret v
     | None => raise (UnboundLocalError "valid_loss")
     end).

(** The [while] loop of [main] (train.py 316-320), run for at most [fuel]
    iterations: [None] when the fuel ends with the loop still running,
    [Some tt] when the loop condition fails.  The body never assigns
    [epoch_idx]. *)
Fixpoint main_loop (fuel : nat) (args : Args) (epoch_idx : Z)
    : M X (option unit) :=
  if epoch_idx <=? max_epoch args then
    match fuel with
    | O => mret None
    | S fuel =>
        valid_losses ← train args epoch_idx;
        v0 ← lift (subscript0 valid_losses);
        emit (ELrStep epoch_idx v0);;
        lr ← call (lr_step epoch_idx v0);
        main_loop fuel args epoch_idx
    end
  else mret (Some tt).

(** [main] (train.py 311-323) from [max_epoch = args.max_epoch] on; the
    collaborators it builds before that (model, criterion, dataset,
    trainer) are the initial [X], and the [breakpoint()] it passes has no
    part in the control flow.  [EDoneTraining] is the "done training" log
    line. *)
Definition main (fuel : nat) (args : Args) : M X (option unit) :=
  let epoch_idx := 1 in
  finished ← main_loop fuel args epoch_idx;
  match finished with
  | Some _ => emit EDoneTraining;; mret (Some tt)
  | None => mret None
  end.

End Orchestrator.

(** ** The checkpoint manager *)
Module CheckpointManager.

(** Modelled from the spec: the Run snapshot a checkpoint holds (spec
    section 3); the module checkpoint_utils that train.py imports is
    missing. *)
Record Run : Type := {
  epoch : Z;
  num_updates : Z;
  best_score : Q
}.

(** Modelled from the spec: the paths under [save_dir], one per retained
    epoch plus the "best" alias (spec section 6). *)
Inductive Path : Type :=
| EpochPath (epoch : Z)
| BestPath.

(** Modelled from the spec: the checkpoint directory, the one resource
    the workers share (spec section 5). *)
Record Dir : Type := {
  epoch_files : gmap Z Run;
  best_file : option Run
}.

Definition empty_dir : Dir := {| epoch_files := ∅; best_file := None |}.

(** Modelled from the spec: the master worker is the one of rank 0 (spec
    section 3). *)
Definition is_master (args : Args) : bool := distributed_rank args =? 0.

(** Modelled from the spec: an epoch is retained when the interval
    divides it (spec section 4.3). *)
Definition retained (args : Args) (epoch : Z) : bool :=
  epoch mod save_interval args =? 0.

(** Modelled from the spec: [save_checkpoint] (spec section 4.3) writes,
    on the master worker, the snapshot tagged by its epoch, skips the
    epochs the interval does not divide, and also writes the "best" alias
    when [valid_score] is no worse than the running best score. *)
Definition save_checkpoint (args : Args) (run : Run) (valid_score : Q)
    (d : Dir) : Dir :=
  if is_master args && retained args (epoch run)
  then {| epoch_files := <[epoch run := run]> (epoch_files d);
          best_file := if Qle_bool (best_score run) valid_score
                       then Some run else best_file d |}
  else d.

(** Modelled from the spec: [load_checkpoint] (spec section 4.3) restores
    the snapshot stored under a path. *)
Definition load_checkpoint (path : Path) (d : Dir) : option Run :=
  match path with
  | EpochPath e => epoch_files d !! e
  | BestPath => best_file d
  end.

End CheckpointManager.

(** ** A reference run

    Modelled from the spec: one concrete set of collaborators (Trainer of
    spec section 4.5, MetricsAggregator of 4.1, CheckpointManager of 4.3,
    barrier of 4.2); the modules trainer, loggings, checkpoint_utils and
    distributed that train.py imports are missing. *)
Module Ref.

(** A batch: whether its training step succeeds (or is an OOM/overflow
    skip) and the AUROC a validation step on it logs. *)
Record Sample : Type := {
  ok : bool;
  auroc : pyval
}.

Record World : Type := {
  w_train : list Sample;
  w_valid : list Sample;
  w_num_updates : Z;
  w_best_score : Q;
  w_meters : gmap string Stats;
  w_valid_agg : Stats;
  w_dir : CheckpointManager.Dir;
  w_initialized : bool
}.

Definition score_of (v : pyval) : Q :=
  match v with
  | PNum q => q
  | PTensor (q :: _) => q
  | PTensor [] => 0%Q
  end.

Definition set_meters (m : gmap string Stats) (w : World) : World :=
  {| w_train := w_train w; w_valid := w_valid w;
     w_num_updates := w_num_updates w; w_best_score := w_best_score w;
     w_meters := m; w_valid_agg := w_valid_agg w; w_dir := w_dir w;
     w_initialized := w_initialized w |}.

Definition set_valid_agg (s : Stats) (w : World) : World :=
  {| w_train := w_train w; w_valid := w_valid w;
     w_num_updates := w_num_updates w; w_best_score := w_best_score w;
     w_meters := w_meters w; w_valid_agg := s; w_dir := w_dir w;
     w_initialized := w_initialized w |}.

Definition set_run (n : Z) (b : Q) (w : World) : World :=
  {| w_train := w_train w; w_valid := w_valid w;
     w_num_updates := n; w_best_score := b;
     w_meters := w_meters w; w_valid_agg := w_valid_agg w; w_dir := w_dir w;
     w_initialized := w_initialized w |}.

Definition set_dir (d : CheckpointManager.Dir) (w : World) : World :=
  {| w_train := w_train w; w_valid := w_valid w;
     w_num_updates := w_num_updates w; w_best_score := w_best_score w;
     w_meters := w_meters w; w_valid_agg := w_valid_agg w; w_dir := d;
     w_initialized := w_initialized w |}.

Definition smoothed (name : string) (w : World) : Stats :=
  default ∅ (w_meters w !! name).

(** A value logged while "train" and "train_inner" are both active
    reaches both contexts. *)
Definition log_scalar (key : string) (v : pyval) (w : World) : World :=
  set_meters
    (<["train" := <[key := v]> (smoothed "train" w)]>
       (<["train_inner" := <[key := v]> (smoothed "train_inner" w)]>
          (w_meters w)))
    w.

(** Modelled from the spec: a [train_step] that succeeds counts one
    update and logs it; a skipped step leaves the trainer and the meters
    as they were (spec section 4.5). *)
Definition ref_train_step (s : Sample) (w : World) : option Stats * World :=
  if ok s
  then let n := w_num_updates w + 1 in
       (Some {["num_updates" := PNum (inject_Z n)]},
        log_scalar "num_updates" (PNum (inject_Z n))
          (set_run n (w_best_score w) w))
  else (None, w).

(** Modelled from the spec: the running best score follows the
    validation scores handed to [save_checkpoint]; the snapshot written
    holds it (spec section 4.3). *)
Definition ref_save_checkpoint (args : Args) (e : Z) (valid_loss : pyval)
    (w : World) : World :=
  let score := score_of valid_loss in
  let best' := if Qle_bool (w_best_score w) score
               then score else w_best_score w in
  let run := {| CheckpointManager.epoch := e;
                CheckpointManager.num_updates := w_num_updates w;
                CheckpointManager.best_score := best' |} in
  set_run (w_num_updates w) best'
    (set_dir (CheckpointManager.save_checkpoint args run score (w_dir w)) w).

(** Modelled from the spec: resuming brings the run counters back from
    the snapshot under [path] (spec section 4.3). *)
Definition ref_load_checkpoint (path : CheckpointManager.Path) (w : World)
    : World :=
  match CheckpointManager.load_checkpoint path (w_dir w) with
  | Some run =>
      set_run (CheckpointManager.num_updates run)
              (CheckpointManager.best_score run) w
  | None => w
  end.

#[global] Instance ref_collaborators : Collaborators World Sample := {|
  iterator := w_train;
  valid_iterator := w_valid;
  begin_epoch := fun _ w => w;
  train_step := ref_train_step;
  get_num_updates := w_num_updates;
  begin_valid_epoch := fun _ w => w;
  valid_step := fun s w =>
    set_valid_agg (<["auroc" := auroc s]> (w_valid_agg w)) w;
  has_post_validate := fun _ => false;
  post_validate := fun stats _ w => (stats, w);
  lr_step := fun _ _ w => (PNum 0, w);
  aggregate_enter := fun _ w => w;
  aggregate_exit := fun _ w => w;
  aggregate_root_enter := set_valid_agg ∅;
  aggregate_root_exit := fun w => w;
  get_smoothed_values := smoothed;
  agg_get_smoothed_values := w_valid_agg;
  reset_meters := fun name w => set_meters (delete name (w_meters w)) w;
  wall := fun _ => PNum 0;
  save_checkpoint := ref_save_checkpoint;
  is_initialized := w_initialized;
  barrier := fun w => w
|}.

(** A world about to start: [train] and [valid] are the batches of the
    two iterators, [dist] whether the process group is initialized. *)
Definition world (train valid : list Sample) (dist : bool) : World :=
  {| w_train := train; w_valid := valid; w_num_updates := 0;
     w_best_score := 0%Q; w_meters := ∅; w_valid_agg := ∅;
     w_dir := CheckpointManager.empty_dir; w_initialized := dist |}.

(** A new process over the same checkpoint directory: everything held in
    memory starts over. *)
Definition restart (w : World) : World :=
  set_dir (w_dir w) (world (w_train w) (w_valid w) (w_initialized w)).

(** A process that has just started: [get_valid_stats] has no [best]
    attribute yet. *)
Definition fresh (w : World) : Proc World := {| ext := w; best := None |}.

Definition batch (succeeds : bool) (a : Q) : Sample :=
  {| ok := succeeds; auroc := PTensor [a] |}.

Definition args0 (max_epoch log_interval save_interval : Z) : Args :=
  {| max_epoch := max_epoch; log_interval := log_interval;
     save_interval := save_interval; distributed_world_size := 1;
     distributed_rank := 0 |}.

(** Processes about to train: the batches of the epoch succeed or are
    skipped as named; validation sees one batch with AUROC 0.7. *)
Definition idle : Proc World := fresh (world [] [] false).
Definition one_step : Proc World :=
  fresh (world [batch true 0.5] [batch true 0.7] false).
Definition one_step_distributed : Proc World :=
  fresh (world [batch true 0.5] [batch true 0.7] true).
Definition two_steps : Proc World :=
  fresh (world [batch true 0.5; batch true 0.5] [batch true 0.7] false).
Definition step_skip_step : Proc World :=
  fresh (world [batch true 0.5; batch false 0.5; batch true 0.5]
           [batch true 0.7] false).
Definition skip_then_step : Proc World :=
  fresh (world [batch false 0.5; batch true 0.5] [batch true 0.7] false).
Definition all_skipped : Proc World :=
  fresh (world [batch false 0.5; batch false 0.5] [batch true 0.7] false).
Definition nothing_to_validate : Proc World :=
  fresh (world [batch true 0.5] [] false).

(** A process that validated with AUROC 0.9 and wrote the checkpoint of
    epoch 1, and the process that starts afterwards and loads it. *)
Definition validated : Proc World :=
  final (get_valid_stats (args0 3 1 1) {["auroc" := PNum 0.9]} idle).
Definition reloaded : Proc World :=
  fresh (ref_load_checkpoint (CheckpointManager.EpochPath 1)
           (restart (ref_save_checkpoint (args0 3 1 1) 1 (PNum 0.9)
                       (ext validated)))).

End Ref.

(** The same collaborators in a run whose process group is initialized
    from start to end. *)
Definition always_initialized {X Sample : Type} (C : Collaborators X Sample)
    : Collaborators X Sample :=
  {| iterator := iterator;
     valid_iterator := valid_iterator;
     begin_epoch := begin_epoch;
     train_step := train_step;
     get_num_updates := get_num_updates;
     begin_valid_epoch := begin_valid_epoch;
     valid_step := valid_step;
     has_post_validate := has_post_validate;
     post_validate := post_validate;
     lr_step := lr_step;
     aggregate_enter := aggregate_enter;
     aggregate_exit := aggregate_exit;
     aggregate_root_enter := aggregate_root_enter;
     aggregate_root_exit := aggregate_root_exit;
     get_smoothed_values := get_smoothed_values;
     agg_get_smoothed_values := agg_get_smoothed_values;
     reset_meters := reset_meters;
     wall := wall;
     save_checkpoint := save_checkpoint;
     is_initialized := fun _ => true;
     barrier := barrier |}.

(** ** Reading a trace *)

Definition is_validate (ev : Event) : bool :=
  match ev with EValidate _ => true | _ => false end.

Definition is_save (ev : Event) : bool :=
  match ev with ESaveCheckpoint _ _ => true | _ => false end.

Definition is_barrier (ev : Event) : bool :=
  match ev with EBarrier => true | _ => false end.

(** A [train_step] that returned a log output. *)
Definition is_trained_step (ev : Event) : bool :=
  match ev with ETrainStep _ skipped => negb skipped | _ => false end.

Definition is_progress_log (ev : Event) : bool :=
  match ev with EProgressLog _ _ => true | _ => false end.

(** [progress.print(stats, tag="train", ...)], the end-of-epoch summary. *)
Definition is_train_summary (ev : Event) : bool :=
  match ev with EProgressPrint tag _ => String.eqb tag "train" | _ => false end.

(** [progress.print(stats, tag="valid", ...)], the last call of
    [validate]. *)
Definition is_valid_summary (ev : Event) : bool :=
  match ev with EProgressPrint tag _ => String.eqb tag "valid" | _ => false end.

Definition is_begin_epoch (ev : Event) : bool :=
  match ev with EBeginEpoch _ => true | _ => false end.

Definition is_done (ev : Event) : bool :=
  match ev with EDoneTraining => true | _ => false end.

(** How many events of a trace satisfy [f]. *)
Fixpoint count (f : Event -> bool) (l : list Event) : nat :=
  match l with
  | [] => 0%nat
  | ev :: l => ((if f ev then 1 else 0) + count f l)%nat
  end.

(** The calls of the validation pass proper. *)
Definition is_validation_step (ev : Event) : bool :=
  match ev with EValidStep _ | EPostValidate => true | _ => false end.

(** The events [validate] emits after its first, [EValidate]. *)
Definition is_validation_inner (ev : Event) : bool :=
  match ev with
  | EValidStep _ | EPostValidate => true
  | EProgressPrint tag _ => String.eqb tag "valid"
  | _ => false
  end.

(** Every event that satisfies [P] comes directly after one that
    satisfies [Q]. *)
Definition immediately_preceded (P Q : Event -> bool) (l : list Event)
    : Prop :=
  forall pre ev post,
    l = pre ++ ev :: post -> P ev = true ->
    exists pre' ev', pre = pre' ++ [ev'] /\ Q ev' = true.

(** Every event that satisfies [P] comes directly before one that
    satisfies [Q]. *)
Definition immediately_followed (P Q : Event -> bool) (l : list Event)
    : Prop :=
  forall pre ev post,
    l = pre ++ ev :: post -> P ev = true ->
    exists ev' post', post = ev' :: post' /\ Q ev' = true.

(** The same two properties as scans of the trace; [prev] is the event
    before the first, if any. *)
Fixpoint each_preceded (P Q : Event -> bool) (prev : option Event)
    (l : list Event) : bool :=
  match l with
  | [] => true
  | ev :: l =>
      (if P ev then match prev with Some ev' => Q ev' | None => false end
       else true)
      && each_preceded P Q (Some ev) l
  end.

Fixpoint each_followed (P Q : Event -> bool) (l : list Event) : bool :=
  match l with
  | [] => true
  | ev :: l =>
      (if P ev then match l with ev' :: _ => Q ev' | [] => false end
       else true)
      && each_followed P Q l
  end.

Fixpoint last_or (prev : option Event) (l : list Event) : option Event :=
  match l with
  | [] => prev
  | ev :: l => last_or (Some ev) l
  end.

(** A [save_checkpoint] call carries [epoch]. *)
Definition saves_epoch (epoch : Z) (ev : Event) : Prop :=
  match ev with ESaveCheckpoint e _ => e = epoch | _ => True end.

(** A [progress.log] call has the tag "train_inner" and a step the
    interval divides. *)
Definition logs_at_interval (args : Args) (ev : Event) : Prop :=
  match ev with
  | EProgressLog tag step =>
      tag = "train_inner" /\ log_interval args <> 0 /\
      step mod log_interval args = 0
  | _ => True
  end.

(** What can come directly before a [validate] call: the step, or the
    [reset_meters] that ends its mid-epoch log. *)
Definition is_step_or_reset (ev : Event) : bool :=
  match ev with
  | ETrainStep _ skipped => negb skipped
  | EResetMeters name => String.eqb name "train_inner"
  | _ => false
  end.

Definition is_reset_train_inner (ev : Event) : bool :=
  match ev with EResetMeters name => String.eqb name "train_inner" | _ => false end.

(** What C3 asks of a trace: before every checkpoint write there is a
    barrier that follows a validation. *)
Definition write_follows_barrier (tr : list Event) : Prop :=
  forall pre e v post,
    tr = pre ++ ESaveCheckpoint e v :: post ->
    exists a e' b c, pre = a ++ EValidate e' :: b ++ EBarrier :: c.

(** The mid-epoch log of an iteration: nothing, or [progress.log] with a
    step the interval divides, then [reset_meters]. *)
Inductive logged_shape (args : Args) : list Event -> Prop :=
| shape_not_logged : logged_shape args []
| shape_logged n :
    log_interval args <> 0 -> n mod log_interval args = 0 ->
    logged_shape args
      [EProgressLog "train_inner" n; EResetMeters "train_inner"].

(** The traces of one loop iteration; [initialized] tells which values
    [torch.distributed.is_initialized()] can take, the boolean whether the
    iteration returns. *)
Inductive iteration_shape (args : Args) (epoch : Z)
    (initialized : bool -> Prop) : bool -> list Event -> Prop :=
| shape_skipped i :
    iteration_shape args epoch initialized true [ETrainStep i true]
| shape_zero_division i :
    log_interval args = 0 ->
    iteration_shape args epoch initialized false [ETrainStep i false]
| shape_validate_raised i logged inner :
    logged_shape args logged ->
    Forall (fun ev => is_validation_inner ev = true) inner ->
    iteration_shape args epoch initialized false
      (ETrainStep i false :: logged ++ EValidate epoch :: inner)
| shape_trained i logged mid n v b :
    logged_shape args logged ->
    Forall (fun ev => is_validation_step ev = true) mid ->
    initialized b ->
    iteration_shape args epoch initialized true
      (ETrainStep i false :: logged
       ++ EValidate epoch :: mid
       ++ EProgressPrint "valid" n :: ESaveCheckpoint epoch v
       :: (if b then [EBarrier] else [])).

(** The traces of the batch loop: iterations that return, then the end
    of the iterator or an iteration that raises. *)
Inductive loop_shape (args : Args) (epoch : Z) (initialized : bool -> Prop)
    : bool -> list Event -> Prop :=
| shape_end : loop_shape args epoch initialized true []
| shape_next returns ev rest :
    iteration_shape args epoch initialized true ev ->
    loop_shape args epoch initialized returns rest ->
    loop_shape args epoch initialized returns (ev ++ rest)
| shape_raised ev :
    iteration_shape args epoch initialized false ev ->
    loop_shape args epoch initialized false ev.

(** ** Workers and the barrier *)
Module Workers.

(** Modelled from the spec: the workers of a run execute in parallel,
    one process each, and [barrier()] blocks the calling worker until all
    workers have reached the call (spec sections 4.2 and 5); the module
    torch.distributed is missing.  A worker is the trace it has run and
    the trace it has yet to run. *)
Definition Worker : Type := (list Event * list Event)%type.

Definition start (programs : list (list Event)) : list Worker :=
  map (fun program => ([], program)) programs.

Definition pass_barrier (w : Worker) : Worker :=
  (fst w ++ [EBarrier], tail (snd w)).

Definition at_barrier (w : Worker) : Prop :=
  exists todo, snd w = EBarrier :: todo.

(** Modelled from the spec: any worker may run its next event when that
    is not a barrier; the barrier is passed by all workers at once, when
    each has reached it (spec section 4.2). *)
Inductive step : list Worker -> list Worker -> Prop :=
| step_local ws rank done ev todo :
    ws !! rank = Some (done, ev :: todo) ->
    is_barrier ev = false ->
    step ws (<[rank := (done ++ [ev], todo)]> ws)
| step_barrier ws :
    Forall at_barrier ws ->
    step ws (map pass_barrier ws).

End Workers.

(** ** Closed forms and vocabulary of the statements

    The closed forms ([valid_stats_result], [validate_result],
    [inner_step], [iteration_result], [train_result]) serve the proofs
    only: each is proved equal to the definition of train.py it unfolds,
    and the theorems are stated on those definitions. *)
Section ClosedForms.
Context {X Sample : Type} `{!Collaborators X Sample}.

(** The state the validation pass leaves and the mapping
    [agg.get_smoothed_values()] then returns. *)
Definition validation_pass (epoch : Z) (x : X) : X :=
  let x0 := begin_valid_epoch epoch x in
  aggregate_root_exit
    (foldl (fun x sample => valid_step sample x) (aggregate_root_enter x0)
       (valid_iterator x0)).

Definition validation_stats (epoch : Z) (x : X) : Stats :=
  agg_get_smoothed_values (validation_pass epoch x).

(** [get_valid_stats] in closed form. *)
Definition valid_stats_result (stats : Stats) (p : Proc X)
    : Outcome Stats * Proc X * list Event :=
  let stats1 := <["num_updates" := PNum (inject_Z (get_num_updates (ext p)))]>
                  stats in
  let prev_best := default (PNum 0) (best p) in
  match stats1 !! "auroc" with
  | None => (Raises (KeyError "auroc"),
             {| ext := ext p; best := Some prev_best |}, [])
  | Some auroc =>
      match py_max auroc prev_best with
      | Returns b => (Returns (<["best_auroc" := b]> stats1),
                      {| ext := ext p; best := Some b |}, [])
      | Raises e => (Raises e, {| ext := ext p; best := Some prev_best |}, [])
      end
  end.

(** Successive calls of [get_valid_stats], one per stats mapping, and the
    [best_auroc] each call reports. *)
Fixpoint best_auroc_outputs (args : Args) (calls : list Stats)
    : M X (list pyval) :=
  match calls with
  | [] => mret []
  | stats :: rest =>
      stats ← get_valid_stats args stats;
      b ← getitem stats "best_auroc";
      bs ← best_auroc_outputs args rest;
      mret (b :: bs)
  end.

(** The outputs in closed form: [prev] is the best so far. *)
Fixpoint running_best (prev : Q) (aurocs : list Q) : list Q :=
  match aurocs with
  | [] => []
  | a :: rest =>
      let b := if Qgtb prev a then prev else a in
      b :: running_best b rest
  end.

(** [b] is the maximum of [l]: one of its elements, and no element is
    greater. *)
Definition is_max_of (b : Q) (l : list Q) : Prop :=
  In b l /\ Forall (fun a => (a <= b)%Q) l.

(** [validate] in closed form. *)
Definition validate_result (epoch : Z) (p : Proc X)
    : Outcome pyval * Proc X * list Event :=
  let x0 := begin_valid_epoch epoch (ext p) in
  let x3 := validation_pass epoch (ext p) in
  let head := EValidate epoch
              :: map EValidStep (seq 0 (length (valid_iterator x0))) in
  match valid_stats_result (agg_get_smoothed_values x3)
          {| ext := x3; best := best p |} with
  | (Raises e, p4, _) => (Raises e, p4, head)
  | (Returns stats, p4, _) =>
      let x4 := ext p4 in
      let hook := if has_post_validate x4
                  then (post_validate stats (get_num_updates x4) x4,
                        [EPostValidate])
                  else ((stats, x4), []) in
      let stats := fst (fst hook) in
      let x5 := snd (fst hook) in
      let evs := head ++ snd hook
                 ++ [EProgressPrint "valid" (get_num_updates x5)] in
      match stats !! "auroc" with
      | Some v => (Returns v, {| ext := x5; best := best p4 |}, evs)
      | None => (Raises (KeyError "auroc"),
                 {| ext := x5; best := best p4 |}, evs)
      end
  end.

(** [with metrics.aggregate("train_inner"): log_output = train_step(samples)]
    in closed form. *)
Definition inner_step (i : nat) (samples : Sample) (p : Proc X)
    : option Stats * Proc X * list Event :=
  let out := train_step samples (aggregate_enter "train_inner" (ext p)) in
  (fst out,
   {| ext := aggregate_exit "train_inner" (snd out); best := best p |},
   [ETrainStep i (is_skip (fst out))]).

(** One loop iteration in closed form. *)
Definition iteration_result (args : Args) (epoch : Z) (i : nat)
    (samples : Sample) (loc : Locals) (p : Proc X)
    : Outcome Locals * Proc X * list Event :=
  let '(log_output, p3, head) := inner_step i samples p in
  match log_output with
  | None => (Returns loc, p3, head)
  | Some _ =>
      let n := get_num_updates (ext p3) in
      if log_interval args =? 0 then (Raises ZeroDivisionError, p3, head)
      else
        let due := n mod log_interval args =? 0 in
        let p4 := if due
                  then {| ext := reset_meters "train_inner" (ext p3);
                          best := best p3 |}
                  else p3 in
        let logged := if due
                      then [EProgressLog "train_inner" n;
                            EResetMeters "train_inner"]
                      else [] in
        match validate args epoch p4 with
        | (Raises e, p5, ev) => (Raises e, p5, head ++ logged ++ ev)
        | (Returns v, p5, ev) =>
            let x6 := save_checkpoint args epoch v (ext p5) in
            let b := is_initialized x6 in
            (Returns {| loc_num_updates := n; loc_valid_loss := Some v |},
             {| ext := if b then barrier x6 else x6; best := best p5 |},
             head ++ logged ++ ev
             ++ ESaveCheckpoint epoch v :: (if b then [EBarrier] else []))
        end
  end.

(** [train] in closed form. *)
Definition train_result (args : Args) (epoch : Z) (p : Proc X)
    : Outcome pyval * Proc X * list Event :=
  let x0 := aggregate_enter "train" (ext p) in
  let p1 := {| ext := begin_epoch epoch x0; best := best p |} in
  let loc0 := {| loc_num_updates := get_num_updates (ext p1);
                 loc_valid_loss := None |} in
  match train_loop args epoch 0 (iterator x0) loc0 p1 with
  | (Returns loc, p2, ev) =>
      (match loc_valid_loss loc with
       | Some v => Returns v
       | None => Raises (UnboundLocalError "valid_loss")
       end,
       {| ext := aggregate_exit "train" (reset_meters "train" (ext p2));
          best := best p2 |},
       [EBeginEpoch epoch] ++ ev
       ++ [EProgressPrint "train" (loc_num_updates loc);
           EResetMeters "train"])
  | (Raises e, p2, ev) =>
      (Raises e,
       {| ext := aggregate_exit "train" (ext p2); best := best p2 |},
       [EBeginEpoch epoch] ++ ev)
  end.

(** Modelled from the spec: what the Trainer and the MetricsAggregator
    (both missing) promise about a skipped step (spec sections 4.1, 4.5
    and 8): a [train_step] that returns the skip value leaves
    [num_updates] and the "train_inner" values as they were, and so does
    entering or leaving an aggregation context. *)
Definition skip_contract : Prop :=
  (forall samples x x',
     train_step samples x = (None, x') ->
     get_num_updates x' = get_num_updates x /\
     get_smoothed_values "train_inner" x'
       = get_smoothed_values "train_inner" x) /\
  (forall name x,
     get_num_updates (aggregate_enter name x) = get_num_updates x /\
     get_smoothed_values "train_inner" (aggregate_enter name x)
       = get_smoothed_values "train_inner" x) /\
  (forall name x,
     get_num_updates (aggregate_exit name x) = get_num_updates x /\
     get_smoothed_values "train_inner" (aggregate_exit name x)
       = get_smoothed_values "train_inner" x).

Definition initialized_values (b : bool) : Prop :=
  exists x : X, is_initialized x = b.

(** The batch loop of [train] as [train] runs it. *)
Definition batch_loop (args : Args) (epoch : Z) (p : Proc X)
    : Outcome Locals * Proc X * list Event :=
  let x0 := aggregate_enter "train" (ext p) in
  let p1 := {| ext := begin_epoch epoch x0; best := best p |} in
  train_loop args epoch 0 (iterator x0)
    {| loc_num_updates := get_num_updates (ext p1); loc_valid_loss := None |}
    p1.

(** Whether an iteration logs mid-epoch stats: its step is not skipped
    and leaves [num_updates] divisible by [log_interval]. *)
Definition log_due (args : Args) (samples : Sample) (x : X) : bool :=
  let out := train_step samples (aggregate_enter "train_inner" x) in
  match fst out with
  | None => false
  | Some _ =>
      let n := get_num_updates (aggregate_exit "train_inner" (snd out)) in
      negb (log_interval args =? 0) && (n mod log_interval args =? 0)
  end.

End ClosedForms.

(** What every step keeps: each worker follows a program in which a
    barrier comes directly after a write, and all workers have passed
    the same number of barriers. *)
Definition in_step (k : nat) (w : Workers.Worker) : Prop :=
  each_preceded is_barrier is_save None (fst w ++ snd w) = true /\
  count is_barrier (fst w) = k.

Definition is_train_step (ev : Event) : bool :=
  match ev with ETrainStep _ _ => true | _ => false end.

(** * Proofs *)

Ltac munfold :=
  unfold mbind, M_bind, bind, mret, M_ret, ret, emit, update, query, call,
    raise, lift, hasattr_best, getattr_best, setattr_best, getitem,
    outcome, final, events in *.

(** ** The checkpoint manager of the spec *)
Section Checkpoints.
Import CheckpointManager.

Lemma retained_divides args e :
  retained args e = true -> (save_interval args | e).
Proof.
  unfold retained. intros H. apply Z.eqb_eq in H.
  destruct (Z.eq_dec (save_interval args) 0) as [Hz | Hnz].
  - rewrite Hz in H |- *. rewrite Z.mod_0_r in H. subst e.
    apply Z.divide_0_r.
  - apply Z.mod_divide; assumption.
Qed.

Lemma save_checkpoint_round_trip args run score d :
  is_master args = true -> retained args (epoch run) = true ->
  load_checkpoint (EpochPath (epoch run)) (save_checkpoint args run score d)
    = Some run.
Proof.
  intros Hm Hr. unfold save_checkpoint. rewrite Hm, Hr. cbn.
  apply lookup_insert_eq.
Qed.

Lemma save_checkpoint_only_retained args run score d e :
  load_checkpoint (EpochPath e) (save_checkpoint args run score d)
    <> load_checkpoint (EpochPath e) d ->
  e = epoch run /\ (save_interval args | e).
Proof.
  unfold save_checkpoint.
  destruct (is_master args); cbn [andb]; [|congruence].
  destruct (retained args (epoch run)) eqn:Hr; [|congruence].
  cbn. intros Hne. destruct (Z.eq_dec (epoch run) e) as [<- | Hother].
  - split; [reflexivity | now apply retained_divides].
  - rewrite lookup_insert_ne in Hne by exact Hother. congruence.
Qed.

End Checkpoints.

Section Validation.
Context {X Sample : Type} `{!Collaborators X Sample}.

Lemma valid_loop_spec samples : forall i (p : Proc X),
  valid_loop i samples p =
    (Returns tt,
     {| ext := foldl (fun x sample => valid_step sample x) (ext p) samples;
        best := best p |},
     map EValidStep (seq i (length samples))).
Proof.
  induction samples as [|s rest IH]; intros i p.
  - destruct p; reflexivity.
  - cbn [valid_loop]. munfold. cbn. rewrite IH. reflexivity.
Qed.

Lemma get_valid_stats_spec args stats (p : Proc X) :
  get_valid_stats args stats p = valid_stats_result stats p.
Proof.
  unfold get_valid_stats, valid_stats_result. munfold.
  destruct p as [x [b|]]; cbn.
  - destruct (_ !! "auroc") as [a|]; cbn; [|reflexivity].
    destruct (py_max a b) as [m|e]; reflexivity.
  - destruct (_ !! "auroc") as [a|]; cbn; [|reflexivity].
    destruct (py_max a (PNum 0)) as [m|e]; reflexivity.
Qed.

Lemma Qgtb_true a b : Qgtb a b = true -> (b < a)%Q.
Proof.
  unfold Qgtb. intros H. apply Qnot_le_lt. intros Hle.
  apply Qle_bool_iff in Hle. rewrite Hle in H. discriminate.
Qed.

Lemma Qgtb_false a b : Qgtb a b = false -> (a <= b)%Q.
Proof.
  unfold Qgtb. intros H. apply Qle_bool_iff.
  destruct (Qle_bool a b); [reflexivity | discriminate].
Qed.

Lemma best_auroc_outputs_spec args calls aurocs :
  Forall2 (fun (stats : Stats) a => stats !! "auroc" = Some (PNum a))
    calls aurocs ->
  forall (p : Proc X) prev,
    default (PNum 0) (best p) = PNum prev ->
    outcome (best_auroc_outputs args calls p)
      = Returns (map PNum (running_best prev aurocs)).
Proof.
  induction 1 as [|stats a calls aurocs Ha _ IH]; intros p prev Hprev.
  - reflexivity.
  - cbn [best_auroc_outputs running_best map].
    unfold mbind, M_bind, bind. rewrite get_valid_stats_spec.
    unfold valid_stats_result. rewrite lookup_insert_ne by discriminate.
    rewrite Ha, Hprev. cbn [py_max py_gt].
    set (b := if Qgtb prev a then prev else a).
    destruct (Qgtb prev a) eqn:E; cbn; unfold getitem;
      rewrite lookup_insert_eq; cbn;
      match goal with
      | |- context [best_auroc_outputs args calls ?q] =>
          specialize (IH q b eq_refl);
          destruct (best_auroc_outputs args calls q) as [[r q'] ev]
      end; unfold outcome in *; cbn in *; subst r; reflexivity.
Qed.

Lemma running_best_length prev aurocs :
  length (running_best prev aurocs) = length aurocs.
Proof.
  revert prev. induction aurocs as [|a rest IH]; intros prev; cbn;
    [reflexivity | now rewrite IH].
Qed.

Lemma running_best_step_le prev a :
  (prev <= (if Qgtb prev a then prev else a))%Q /\
  (a <= (if Qgtb prev a then prev else a))%Q.
Proof.
  destruct (Qgtb prev a) eqn:E.
  - split; [apply Qle_refl | apply Qlt_le_weak, Qgtb_true, E].
  - split; [apply Qgtb_false, E | apply Qle_refl].
Qed.

Lemma running_best_ge_prev aurocs : forall prev k b,
  running_best prev aurocs !! k = Some b -> (prev <= b)%Q.
Proof.
  induction aurocs as [|a rest IH]; intros prev k b Hk; [discriminate|].
  destruct (running_best_step_le prev a) as [Hp _].
  destruct k as [|k]; cbn in Hk.
  - injection Hk as <-. exact Hp.
  - eapply Qle_trans; [exact Hp | eapply IH, Hk].
Qed.

Lemma running_best_monotone aurocs : forall prev k b b',
  running_best prev aurocs !! k = Some b ->
  running_best prev aurocs !! S k = Some b' ->
  (b <= b')%Q.
Proof.
  induction aurocs as [|a rest IH]; intros prev k b b' Hk HSk; [discriminate|].
  destruct k as [|k]; cbn in Hk, HSk.
  - injection Hk as <-. eapply running_best_ge_prev, HSk.
  - eapply IH; eassumption.
Qed.

Lemma running_best_upper aurocs : forall prev k b,
  running_best prev aurocs !! k = Some b ->
  Forall (fun a => (a <= b)%Q) (take (S k) aurocs).
Proof.
  induction aurocs as [|a rest IH]; intros prev k b Hk; [discriminate|].
  destruct (running_best_step_le prev a) as [_ Ha].
  destruct k as [|k]; cbn in Hk.
  - injection Hk as <-. cbn. rewrite take_0. repeat constructor. exact Ha.
  - cbn [take]. constructor.
    + eapply Qle_trans; [exact Ha | eapply running_best_ge_prev, Hk].
    + eapply IH, Hk.
Qed.

Lemma running_best_in aurocs : forall prev k b,
  running_best prev aurocs !! k = Some b ->
  In b (prev :: take (S k) aurocs).
Proof.
  induction aurocs as [|a rest IH]; intros prev k b Hk; [discriminate|].
  destruct k as [|k]; cbn in Hk.
  - injection Hk as <-. destruct (Qgtb prev a); cbn; auto.
  - apply IH in Hk. cbn [take]. destruct Hk as [<- | Hin].
    + destruct (Qgtb prev a); cbn; auto.
    + right. right. exact Hin.
Qed.

Lemma running_best_attained a rest prev k b :
  (prev <= a)%Q ->
  running_best prev (a :: rest) !! k = Some b ->
  In b (take (S k) (a :: rest)).
Proof.
  intros Hle Hk. cbn [running_best] in Hk.
  assert (E : Qgtb prev a = false).
  { unfold Qgtb. apply Qle_bool_iff in Hle. now rewrite Hle. }
  rewrite E in Hk. destruct k as [|k]; cbn in Hk.
  - injection Hk as <-. left. reflexivity.
  - apply running_best_in in Hk. exact Hk.
Qed.


Lemma valid_stats_result_events stats (p : Proc X) :
  snd (valid_stats_result stats p) = [].
Proof.
  unfold valid_stats_result. destruct (_ !! "auroc") as [a|]; [|reflexivity].
  destruct (py_max a _); reflexivity.
Qed.

Lemma validate_spec args epoch (p : Proc X) :
  validate args epoch p = validate_result epoch p.
Proof.
  unfold validate, validate_result, validation_pass, aggregate_new_root,
    with_ctx.
  unfold mbind, M_bind, bind. cbn -[valid_loop get_valid_stats].
  rewrite valid_loop_spec. cbn -[get_valid_stats].
  rewrite get_valid_stats_spec.
  match goal with
  | |- context [valid_stats_result ?s ?q] =>
      pose proof (valid_stats_result_events s q) as Hev;
      destruct (valid_stats_result s q) as [[[stats|e] p4] ev4]
  end; cbn in Hev; subst ev4; [|now rewrite !app_nil_r].
  cbn. destruct (has_post_validate (ext p4)); cbn.
  - unfold call. cbn.
    destruct (post_validate stats _ _) as [stats' x5]; cbn.
    unfold getitem. destruct (stats' !! "auroc"); cbn;
      rewrite <- ?app_assoc; reflexivity.
  - unfold getitem. destruct (stats !! "auroc"); cbn;
      rewrite ?app_nil_r; destruct p4; reflexivity.
Qed.

(** C9: when the mapping aggregated by the validation pass has no
    "auroc" entry, [validate] raises [KeyError] instead of returning; the
    lookup that fails is the one in [get_valid_stats], before the
    validation summary is printed. *)
Theorem validate_raises_without_auroc args epoch (p : Proc X) :
  validation_stats epoch (ext p) !! "auroc" = None ->
  outcome (validate args epoch p) = Raises (KeyError "auroc") /\
  (forall n, ~ In (EProgressPrint "valid" n) (events (validate args epoch p))).
Proof.
  intros Hnone. rewrite validate_spec.
  unfold validate_result, valid_stats_result.
  fold (validation_stats epoch (ext p)).
  rewrite lookup_insert_ne by discriminate. rewrite Hnone.
  split; [reflexivity|].
  intros n [Hin | Hin]; [discriminate|].
  apply in_map_iff in Hin. destruct Hin as [i [Hi _]]. discriminate.
Qed.

Lemma count_app f l1 l2 : count f (l1 ++ l2) = (count f l1 + count f l2)%nat.
Proof. induction l1 as [|ev l1 IH]; cbn; [reflexivity | rewrite IH; lia]. Qed.

Lemma count_none f l :
  Forall (fun ev => f ev = false) l -> count f l = 0%nat.
Proof. induction 1 as [|ev l Hev _ IH]; cbn; [|rewrite Hev, IH]; reflexivity. Qed.

(** What [validate] emits: [EValidate], then only events of the
    validation pass; when it returns, the validation summary is last. *)
Lemma validate_events args epoch (p : Proc X) :
  exists inner,
    events (validate args epoch p) = EValidate epoch :: inner /\
    Forall (fun ev => is_validation_inner ev = true) inner /\
    (is_Returns (outcome (validate args epoch p)) = true ->
     exists mid n,
       inner = mid ++ [EProgressPrint "valid" n] /\
       Forall (fun ev => is_validation_step ev = true) mid).
Proof.
  rewrite validate_spec. unfold validate_result.
  set (steps := map EValidStep _).
  assert (Hsteps : Forall (fun ev => is_validation_step ev = true) steps).
  { apply List.Forall_forall. intros ev Hin. apply in_map_iff in Hin.
    destruct Hin as [i [<- _]]. reflexivity. }
  assert (Hinner : forall l, Forall (fun ev => is_validation_step ev = true) l ->
                             Forall (fun ev => is_validation_inner ev = true) l).
  { intros l Hl. eapply List.Forall_impl; [|exact Hl].
    intros [] Hev; cbn in Hev |- *; try discriminate; reflexivity. }
  destruct (valid_stats_result _ _) as [[[stats|e] p4] ev4].
  - set (hook := if has_post_validate (ext p4) then _ else _).
    assert (Hhook : Forall (fun ev => is_validation_step ev = true)
                      (snd hook)).
    { unfold hook. destruct (has_post_validate (ext p4)); cbn;
        repeat constructor. }
    exists (steps ++ snd hook
            ++ [EProgressPrint "valid" (get_num_updates (snd (fst hook)))]).
    split; [destruct (_ !! "auroc"); reflexivity|]. split.
    + apply Forall_app. split; [auto|].
      apply Forall_app. split; [auto | repeat constructor].
    + intros _. exists (steps ++ snd hook), (get_num_updates (snd (fst hook))).
      split; [now rewrite <- app_assoc|].
      apply Forall_app. split; assumption.
  - exists steps. split; [reflexivity|]. split; [auto|].
    cbn. discriminate.
Qed.

End Validation.

Ltac inner_events H :=
  eapply List.Forall_impl; [|exact H];
  let ev := fresh "ev" in
  let Hev := fresh "Hev" in
  intros ev Hev; destruct ev; cbn in Hev |- *;
  try discriminate; try reflexivity; try exact I;
  try (apply String.eqb_eq in Hev; subst; reflexivity).

Ltac logged_events H := destruct H; repeat constructor; auto.

(** The cases of an iteration trace, with the names the tactics below
    use. *)
Ltac shape_inv H :=
  inversion H as [|? Hli|? logged mid Hlogged Hmid
                  |? logged mid ? ? b Hlogged Hmid Hb]; subst.

(** A property of every event of an iteration trace. *)
Ltac shape_forall :=
  repeat match goal with
  | |- Forall _ [] => constructor
  | |- Forall _ (_ :: _) => constructor
  | |- Forall _ (_ ++ _) => apply Forall_app; split
  | |- Forall _ (if ?c then _ else _) => destruct c
  | H : logged_shape _ ?l |- Forall _ ?l => destruct H
  | H : Forall _ ?l |- Forall _ ?l => inner_events H
  | |- _ => first [reflexivity | exact I | assumption | split]
  end.

Section Traces.

Lemma last_or_inv l : forall prev ev,
  last_or prev l = Some ev ->
  (l = [] /\ prev = Some ev) \/ exists l', l = l' ++ [ev].
Proof.
  induction l as [|ev0 l IH]; intros prev ev Hlast; cbn in Hlast.
  - left. auto.
  - right. destruct (IH _ _ Hlast) as [[-> [= ->]] | [l' ->]].
    + exists []. reflexivity.
    + exists (ev0 :: l'). reflexivity.
Qed.

Lemma last_or_None_inv l ev :
  last_or None l = Some ev -> exists l', l = l' ++ [ev].
Proof.
  intros Hlast. destruct (last_or_inv _ _ _ Hlast) as [[_ Hnone] | Hex];
    [discriminate | exact Hex].
Qed.

Lemma each_preceded_app P Q l1 : forall prev l2,
  each_preceded P Q prev (l1 ++ l2)
    = each_preceded P Q prev l1 && each_preceded P Q (last_or prev l1) l2.
Proof.
  induction l1 as [|ev l1 IH]; intros prev l2; cbn; [reflexivity|].
  rewrite IH. now rewrite andb_assoc.
Qed.

Lemma each_preceded_none P Q l : forall prev,
  Forall (fun ev => P ev = false) l -> each_preceded P Q prev l = true.
Proof.
  induction l as [|ev l IH]; intros prev Hl; [reflexivity|].
  inversion Hl as [|? ? Hev Hl']; subst. cbn. rewrite Hev. cbn. now apply IH.
Qed.

Lemma each_preceded_sound P Q l :
  each_preceded P Q None l = true -> immediately_preceded P Q l.
Proof.
  intros Hscan pre ev post -> HP.
  rewrite each_preceded_app in Hscan. apply andb_true_iff in Hscan.
  destruct Hscan as [_ Hscan]. cbn in Hscan. rewrite HP in Hscan.
  destruct (last_or None pre) as [ev'|] eqn:Hlast; [|discriminate].
  apply andb_true_iff in Hscan. destruct Hscan as [HQ _].
  apply last_or_None_inv in Hlast. destruct Hlast as [pre' ->]. eauto.
Qed.

Lemma each_followed_app P Q l1 l2 :
  each_followed P Q l1 = true -> each_followed P Q l2 = true ->
  each_followed P Q (l1 ++ l2) = true.
Proof.
  intros H1 H2. induction l1 as [|ev l1 IH]; [exact H2|].
  cbn in H1 |- *. apply andb_true_iff in H1. destruct H1 as [Hev H1].
  rewrite (IH H1), andb_true_r.
  destruct (P ev); [|reflexivity]. destruct l1; [discriminate | exact Hev].
Qed.

Lemma each_followed_none P Q l :
  Forall (fun ev => P ev = false) l -> each_followed P Q l = true.
Proof.
  induction 1 as [|ev l Hev _ IH]; [reflexivity|].
  cbn. now rewrite Hev, IH.
Qed.

Lemma each_followed_sound P Q l :
  each_followed P Q l = true -> immediately_followed P Q l.
Proof.
  intros Hscan pre ev post -> HP. induction pre as [|ev0 pre IH].
  - cbn in Hscan. rewrite HP in Hscan. destruct post as [|ev' post'];
      [discriminate|].
    apply andb_true_iff in Hscan. destruct Hscan as [HQ _]. eauto.
  - cbn in Hscan. apply andb_true_iff in Hscan. destruct Hscan as [_ Hscan].
    exact (IH Hscan).
Qed.

Section Shapes.
Variables (args : Args) (epoch : Z) (initialized : bool -> Prop).

(** Scans of an iteration trace, case by case. *)
Ltac shape_cases :=
  try reflexivity;
  repeat match goal with
         | |- context [if ?c then _ else _] => is_var c; destruct c
         end.

Ltac shape_scan :=
  shape_cases;
  match goal with
  | Hlogged : logged_shape _ _, Hmid : Forall _ _ |- _ =>
      destruct Hlogged; cbn; rewrite ?each_preceded_app; cbn;
      rewrite ?each_preceded_none by (inner_events Hmid); reflexivity
  end.

Ltac shape_follow :=
  shape_cases;
  match goal with
  | Hlogged : logged_shape _ _, Hmid : Forall _ _ |- _ =>
      destruct Hlogged; cbn;
      first [ solve [apply each_followed_none; inner_events Hmid]
            | apply each_followed_app;
              [apply each_followed_none; inner_events Hmid | reflexivity] ]
  end.

Lemma iteration_counts ev :
  iteration_shape args epoch initialized true ev ->
  count is_validate ev = count is_trained_step ev /\
  count is_save ev = count is_trained_step ev.
Proof.
  intros Hshape. shape_inv Hshape; [split; reflexivity|].
  cbn [count is_validate is_save is_trained_step negb].
  rewrite !count_app. cbn [count is_validate is_save is_trained_step negb].
  rewrite !count_app. cbn [count is_validate is_save is_trained_step negb].
  rewrite !(count_none _ logged) by (logged_events Hlogged).
  rewrite !(count_none _ mid) by (inner_events Hmid).
  destruct b; split; reflexivity.
Qed.

Lemma loop_counts ev :
  loop_shape args epoch initialized true ev ->
  count is_validate ev = count is_trained_step ev /\
  count is_save ev = count is_trained_step ev.
Proof.
  remember true as returns eqn:Hret. induction 1 as [|r ev rest Hit _ IH|];
    [split; reflexivity | | discriminate].
  destruct (iteration_counts _ Hit) as [Hv Hs].
  destruct (IH Hret) as [Hv' Hs']. rewrite !count_app. lia.
Qed.

(** What holds of every event of every iteration holds of every event of
    the loop. *)
Lemma loop_forall (P : Event -> Prop) :
  (forall returns ev,
     iteration_shape args epoch initialized returns ev -> Forall P ev) ->
  forall returns ev,
    loop_shape args epoch initialized returns ev -> Forall P ev.
Proof.
  intros Hit returns ev Hloop.
  induction Hloop as [|r ev rest Hev _ IH|ev Hev]; [constructor | | eauto].
  apply Forall_app. split; [eapply Hit, Hev | exact IH].
Qed.

Lemma loop_saves_epoch returns ev :
  loop_shape args epoch initialized returns ev ->
  Forall (saves_epoch epoch) ev.
Proof. apply loop_forall. intros r tr Htr. shape_inv Htr; shape_forall. Qed.

Lemma loop_logs_at_interval returns ev :
  loop_shape args epoch initialized returns ev ->
  Forall (logs_at_interval args) ev.
Proof. apply loop_forall. intros r tr Htr. shape_inv Htr; shape_forall. Qed.

Lemma loop_no_barrier returns ev :
  (forall b, initialized b -> b = false) ->
  loop_shape args epoch initialized returns ev ->
  Forall (fun ev => is_barrier ev = false) ev.
Proof.
  intros Hinit. apply loop_forall. intros r tr Htr.
  shape_inv Htr; try rewrite (Hinit b Hb); shape_forall.
Qed.

Lemma loop_no_summary returns ev :
  loop_shape args epoch initialized returns ev ->
  Forall (fun ev => is_train_summary ev = false) ev /\
  Forall (fun ev => is_begin_epoch ev = false) ev /\
  Forall (fun ev => is_done ev = false) ev.
Proof.
  intros Hloop. repeat split; (eapply loop_forall; [|exact Hloop]);
    intros r tr Htr; shape_inv Htr; shape_forall.
Qed.

Lemma iteration_save_after_validation returns ev prev :
  iteration_shape args epoch initialized returns ev ->
  each_preceded is_save is_valid_summary prev ev = true.
Proof. intros Hshape. shape_inv Hshape; shape_scan. Qed.

Lemma iteration_barrier_after_save returns ev prev :
  iteration_shape args epoch initialized returns ev ->
  each_preceded is_barrier is_save prev ev = true.
Proof. intros Hshape. shape_inv Hshape; shape_scan. Qed.

Lemma iteration_log_after_step returns ev prev :
  iteration_shape args epoch initialized returns ev ->
  each_preceded is_progress_log is_trained_step prev ev = true.
Proof. intros Hshape. shape_inv Hshape; shape_scan. Qed.

Lemma iteration_validate_after_step returns ev prev :
  iteration_shape args epoch initialized returns ev ->
  each_preceded is_validate is_step_or_reset prev ev = true.
Proof. intros Hshape. shape_inv Hshape; shape_scan. Qed.

Lemma iteration_reset_after_log returns ev :
  iteration_shape args epoch initialized returns ev ->
  each_followed is_progress_log is_reset_train_inner ev = true.
Proof. intros Hshape. shape_inv Hshape; shape_follow. Qed.

Lemma iteration_barrier_follows_save returns ev :
  (forall b, initialized b -> b = true) ->
  iteration_shape args epoch initialized returns ev ->
  each_followed is_save is_barrier ev = true.
Proof.
  intros Hinit Hshape.
  shape_inv Hshape; try rewrite (Hinit b Hb); shape_follow.
Qed.

Lemma iteration_save_follows_validation ev :
  iteration_shape args epoch initialized true ev ->
  each_followed is_valid_summary is_save ev = true.
Proof. intros Hshape. shape_inv Hshape; shape_follow. Qed.

Lemma loop_save_follows_validation ev :
  loop_shape args epoch initialized true ev ->
  each_followed is_valid_summary is_save ev = true.
Proof.
  remember true as returns eqn:Hret.
  induction 1 as [|r ev rest Hev _ IH|]; [reflexivity | | discriminate].
  subst r. apply each_followed_app;
    [now apply iteration_save_follows_validation | exact (IH eq_refl)].
Qed.

Lemma loop_each_preceded P Q :
  (forall returns ev prev,
     iteration_shape args epoch initialized returns ev ->
     each_preceded P Q prev ev = true) ->
  forall returns ev prev,
    loop_shape args epoch initialized returns ev ->
    each_preceded P Q prev ev = true.
Proof.
  intros Hit returns ev prev Hloop. revert prev.
  induction Hloop as [|r ev rest Hev _ IH|ev Hev]; intros prev.
  - reflexivity.
  - rewrite each_preceded_app, (Hit _ _ _ Hev), IH. reflexivity.
  - eapply Hit, Hev.
Qed.

Lemma loop_each_followed P Q :
  (forall returns ev,
     iteration_shape args epoch initialized returns ev ->
     each_followed P Q ev = true) ->
  forall returns ev,
    loop_shape args epoch initialized returns ev ->
    each_followed P Q ev = true.
Proof.
  intros Hit returns ev Hloop.
  induction Hloop as [|r ev rest Hev _ IH|ev Hev].
  - reflexivity.
  - apply each_followed_app; [eapply Hit, Hev | exact IH].
  - eapply Hit, Hev.
Qed.

End Shapes.

(** Where every barrier comes directly after a write, no part of the
    trace has more barriers than writes. *)
Lemma barriers_le_saves l : forall prev,
  each_preceded is_barrier is_save prev l = true ->
  (count is_barrier l
   <= count is_save l
      + (match prev with
         | Some ev => if is_save ev then 1 else 0
         | None => 0
         end))%nat.
Proof.
  induction l as [|ev l IH]; intros prev Hscan; cbn in Hscan |- *; [lia|].
  apply andb_true_iff in Hscan. destruct Hscan as [Hev Hscan].
  specialize (IH _ Hscan). cbn in IH.
  destruct ev; cbn in Hev, IH |- *; try lia.
  destruct prev as [ev'|]; [|discriminate]. rewrite Hev. lia.
Qed.

Lemma done_barriers_le_saves done todo :
  each_preceded is_barrier is_save None (done ++ todo) = true ->
  (count is_barrier done <= count is_save done)%nat.
Proof.
  rewrite each_preceded_app. intros Hscan.
  apply andb_true_iff in Hscan. destruct Hscan as [Hdone _].
  apply barriers_le_saves in Hdone. lia.
Qed.

Section Barrier.
Import Workers.

Lemma step_in_step ws ws' k :
  step ws ws' -> Forall (in_step k) ws -> exists k', Forall (in_step k') ws'.
Proof.
  intros Hstep Hall. destruct Hstep as [ws rank done ev todo Hw Hev|ws Hbar].
  - exists k. apply Forall_insert; [exact Hall|].
    destruct (Forall_lookup_1 _ _ _ _ Hall Hw) as [Hprog Hk]. cbn in Hprog, Hk.
    split; cbn.
    + now rewrite <- app_assoc.
    + rewrite count_app. cbn. rewrite Hev. lia.
  - exists (S k). apply Forall_fmap.
    rewrite List.Forall_forall in Hall, Hbar. apply List.Forall_forall.
    intros [done todo] Hin. destruct (Hall _ Hin) as [Hprog Hk].
    destruct (Hbar _ Hin) as [todo' Htodo]. cbn in Hprog, Hk, Htodo. subst todo.
    split; cbn.
    + now rewrite <- app_assoc.
    + rewrite count_app. cbn. lia.
Qed.

Lemma run_in_step ws ws' :
  rtc step ws ws' ->
  forall k, Forall (in_step k) ws -> exists k', Forall (in_step k') ws'.
Proof.
  induction 1 as [ws|ws ws1 ws2 Hstep _ IH]; intros k Hall; [eauto|].
  destruct (step_in_step _ _ _ Hstep Hall) as [k1 Hall1]. eauto.
Qed.

(** However the workers interleave, a worker that has passed [k]
    barriers runs with at least [k] checkpoint writes of every worker
    done. *)
Lemma barrier_orders_writes programs ws :
  Forall (fun program => each_preceded is_barrier is_save None program = true)
    programs ->
  rtc step (start programs) ws ->
  forall w w', In w ws -> In w' ws ->
    (count is_barrier (fst w) <= count is_save (fst w'))%nat.
Proof.
  intros Hprogs Hrun.
  assert (Hstart : Forall (in_step 0) (start programs)).
  { unfold start. apply Forall_fmap. eapply List.Forall_impl; [|exact Hprogs].
    intros program Hscan. split; [exact Hscan | reflexivity]. }
  destruct (run_in_step _ _ Hrun _ Hstart) as [k Hall].
  rewrite List.Forall_forall in Hall.
  intros w w' Hw Hw'. destruct (Hall _ Hw) as [_ Hk].
  destruct (Hall _ Hw') as [Hprog' Hk'].
  apply done_barriers_le_saves in Hprog'. lia.
Qed.

End Barrier.

End Traces.

Section Training.
Context {X Sample : Type} `{!Collaborators X Sample}.

Lemma train_iteration_spec args epoch i samples loc (p : Proc X) :
  train_iteration args epoch i samples loc p
    = iteration_result args epoch i samples loc p.
Proof.
  unfold train_iteration, iteration_result, inner_step, aggregate, with_ctx,
    mod_is_zero, get_training_stats.
  unfold mbind, M_bind, bind, update, query, call, emit. cbn -[validate].
  destruct (train_step samples _) as [[log_output|] x2]; cbn -[validate];
    [|reflexivity].
  destruct (log_interval args =? 0); cbn -[validate]; [reflexivity|].
  destruct (get_num_updates _ mod log_interval args =? 0); cbn -[validate].
  - destruct (validate args epoch _) as [[[v|e] p5] ev]; cbn; [|reflexivity].
    destruct (is_initialized _); cbn;
      rewrite <- ?app_assoc; cbn; rewrite ?app_nil_r; reflexivity.
  - destruct (validate args epoch _) as [[[v|e] p5] ev]; cbn; [|reflexivity].
    destruct (is_initialized _); cbn;
      rewrite <- ?app_assoc; cbn; rewrite ?app_nil_r; reflexivity.
Qed.

Lemma train_spec args epoch (p : Proc X) :
  train args epoch p = train_result args epoch p.
Proof.
  unfold train, train_result, aggregate, with_ctx, get_training_stats.
  unfold mbind, M_bind, bind, update, query, call, emit.
  cbn -[train_loop].
  destruct (train_loop _ _ _ _ _ _) as [[[loc|e] p2] ev]; cbn;
    [|rewrite ?app_nil_r; reflexivity].
  destruct (loc_valid_loss loc); cbn;
    rewrite <- ?app_assoc; cbn; rewrite ?app_nil_r; reflexivity.
Qed.

Lemma train_loop_cons args epoch i samples rest loc (p : Proc X) :
  train_loop args epoch i (samples :: rest) loc p =
    match iteration_result args epoch i samples loc p with
    | (Returns loc', p', ev) =>
        let r := train_loop args epoch (S i) rest loc' p' in
        (outcome r, final r, ev ++ events r)
    | (Raises e, p', ev) => (Raises e, p', ev)
    end.
Proof.
  cbn [train_loop]. unfold mbind, M_bind, bind.
  rewrite train_iteration_spec.
  destruct (iteration_result _ _ _ _ _ _) as [[[loc'|e] p'] ev];
    [|reflexivity].
  destruct (train_loop _ _ _ _ _ _) as [[r q] ev']. reflexivity.
Qed.

(** Either some step of the loop was not skipped, or the loop returns
    with its local variables as they were. *)
Lemma train_loop_trained_or_unchanged args epoch progress :
  forall i loc (p : Proc X),
    (exists j, In (ETrainStep j false)
                 (events (train_loop args epoch i progress loc p))) \/
    outcome (train_loop args epoch i progress loc p) = Returns loc.
Proof.
  induction progress as [|samples rest IH]; intros i loc p.
  - right. reflexivity.
  - rewrite train_loop_cons. unfold iteration_result, inner_step.
    destruct (train_step samples _) as [[log_output|] x2]; cbn -[validate].
    + left. exists i.
      destruct (log_interval args =? 0); [cbn; auto|].
      destruct (validate _ _ _) as [[[v|e] p5] ev]; cbn; auto.
    + destruct (IH (S i) loc
                  {| ext := aggregate_exit "train_inner" x2;
                     best := best p |}) as [[j Hj] | Hret].
      * left. exists j. cbn. auto.
      * right. exact Hret.
Qed.

Lemma train_outcome args epoch (p : Proc X) :
  outcome (train args epoch p)
  = match outcome (batch_loop args epoch p) with
    | Returns loc =>
        match loc_valid_loss loc with
        | Some v => Returns v
        | None => Raises (UnboundLocalError "valid_loss")
        end
    | Raises e => Raises e
    end.
Proof.
  rewrite train_spec. unfold train_result. fold (batch_loop args epoch p).
  destruct (batch_loop args epoch p) as [[[loc|e] p2] ev]; reflexivity.
Qed.

Lemma train_trace args epoch (p : Proc X) :
  events (train args epoch p)
  = EBeginEpoch epoch :: events (batch_loop args epoch p)
    ++ (if is_Returns (outcome (batch_loop args epoch p))
        then [EProgressPrint "train"
                (match outcome (batch_loop args epoch p) with
                 | Returns loc => loc_num_updates loc
                 | Raises _ => 0
                 end);
              EResetMeters "train"]
        else []).
Proof.
  rewrite train_spec. unfold train_result. fold (batch_loop args epoch p).
  destruct (batch_loop args epoch p) as [[[loc|e] p2] ev]; cbn;
    [reflexivity | now rewrite app_nil_r].
Qed.

(** C8: [train] returns a value only if some [train_step] of the epoch
    returned a log output; when every step is skipped, and in particular
    when the iterator yields no batch, it raises [UnboundLocalError] for
    [valid_loss]. *)
Theorem train_returns_only_after_a_step args epoch (p : Proc X) :
  (forall v, outcome (train args epoch p) = Returns v ->
     exists i, In (ETrainStep i false) (events (train args epoch p))) /\
  ((forall i, ~ In (ETrainStep i false) (events (train args epoch p))) ->
     outcome (train args epoch p) = Raises (UnboundLocalError "valid_loss")) /\
  (iterator (aggregate_enter "train" (ext p)) = [] ->
     outcome (train args epoch p) = Raises (UnboundLocalError "valid_loss")).
Proof.
  rewrite train_outcome, train_trace. unfold batch_loop.
  set (x0 := aggregate_enter "train" (ext p)).
  set (p1 := {| ext := begin_epoch epoch x0; best := best p |}).
  set (loc0 := {| loc_num_updates := get_num_updates (ext p1);
                  loc_valid_loss := None |}).
  set (summary := if is_Returns _ then _ else _).
  destruct (train_loop_trained_or_unchanged args epoch (iterator x0) 0 loc0 p1)
    as [[j Hj] | Hret].
  - assert (Hin : exists i, In (ETrainStep i false)
              (EBeginEpoch epoch
               :: events (train_loop args epoch 0 (iterator x0) loc0 p1)
               ++ summary))
      by (exists j; right; apply in_or_app; left; exact Hj).
    split; [intros; exact Hin|]. split.
    + intros Hno. destruct Hin as [i Hi]. destruct (Hno i Hi).
    + intros Hnil. exfalso. rewrite Hnil in Hj. destruct Hj.
  - rewrite Hret. cbn. split; [discriminate|]. split; reflexivity.
Qed.

(** C4: an iteration whose [train_step] returns [None] makes no other
    call than leaving the "train_inner" context: it logs nothing, resets
    no meter, neither validates nor saves, keeps the local variables and
    returns, and the loop goes on with the next batch.  With a trainer that keeps its side of the contract,
    [num_updates] and the "train_inner" values are those from before the
    step. *)
Theorem skipped_step_is_not_logged args epoch i samples rest loc
    (p : Proc X) :
  fst (train_step samples (aggregate_enter "train_inner" (ext p))) = None ->
  exists p',
    train_iteration args epoch i samples loc p
      = (Returns loc, p', [ETrainStep i true]) /\
    ext p' = aggregate_exit "train_inner"
               (snd (train_step samples
                       (aggregate_enter "train_inner" (ext p)))) /\
    best p' = best p /\
    train_loop args epoch i (samples :: rest) loc p
      = (outcome (train_loop args epoch (S i) rest loc p'),
         final (train_loop args epoch (S i) rest loc p'),
         ETrainStep i true
         :: events (train_loop args epoch (S i) rest loc p')) /\
    (skip_contract ->
     get_num_updates (ext p') = get_num_updates (ext p) /\
     get_smoothed_values "train_inner" (ext p')
       = get_smoothed_values "train_inner" (ext p)).
Proof.
  intros Hskip.
  destruct (train_step samples (aggregate_enter "train_inner" (ext p)))
    as [out x2] eqn:Hstep.
  cbn in Hskip. subst out.
  exists {| ext := aggregate_exit "train_inner" x2; best := best p |}.
  assert (Hit : iteration_result args epoch i samples loc p
                = (Returns loc,
                   {| ext := aggregate_exit "train_inner" x2;
                      best := best p |},
                   [ETrainStep i true])).
  { unfold iteration_result, inner_step. rewrite Hstep. reflexivity. }
  split; [|split; [|split; [|split]]].
  - rewrite train_iteration_spec. exact Hit.
  - reflexivity.
  - reflexivity.
  - rewrite train_loop_cons, Hit. reflexivity.
  - intros (Hstepc & Henter & Hexit). cbn [ext].
    destruct (Hexit "train_inner" x2) as [-> ->].
    destruct (Hstepc _ _ _ Hstep) as [-> ->].
    apply Henter.
Qed.

Lemma iteration_has_shape args epoch i samples loc (p : Proc X) :
  iteration_shape args epoch initialized_values
    (is_Returns (outcome (iteration_result args epoch i samples loc p)))
    (events (iteration_result args epoch i samples loc p)).
Proof.
  unfold iteration_result, inner_step.
  destruct (train_step samples _) as [[log_output|] x2]; cbn -[validate];
    [|constructor].
  destruct (log_interval args =? 0) eqn:Hli; [constructor; lia|].
  set (n := get_num_updates _).
  set (p4 := if n mod log_interval args =? 0 then _ else _).
  set (logged := if n mod log_interval args =? 0 then _ else _).
  assert (Hlogged : logged_shape args logged).
  { unfold logged. destruct (n mod log_interval args =? 0) eqn:Hdue;
      constructor; lia. }
  destruct (validate_events args epoch p4) as (inner & Hev & Hinner & Hret).
  destruct (validate args epoch p4) as [[[v|e] p5] ev]; cbn in Hev, Hret |- *;
    subst ev.
  - destruct (Hret eq_refl) as (mid & m & -> & Hmid).
    clearbody logged. cbn [app]. rewrite <- app_assoc. cbn [app].
    apply shape_trained; [exact Hlogged | exact Hmid | eexists; reflexivity].
  - apply shape_validate_raised; assumption.
Qed.

Lemma train_loop_has_shape args epoch progress : forall i loc (p : Proc X),
  loop_shape args epoch initialized_values
    (is_Returns (outcome (train_loop args epoch i progress loc p)))
    (events (train_loop args epoch i progress loc p)).
Proof.
  induction progress as [|samples rest IH]; intros i loc p.
  - constructor.
  - rewrite train_loop_cons.
    pose proof (iteration_has_shape args epoch i samples loc p) as Hit.
    destruct (iteration_result _ _ _ _ _ _) as [[[loc'|e] p'] ev];
      cbn in Hit |- *.
    + apply shape_next; [exact Hit | apply IH].
    + apply shape_raised. exact Hit.
Qed.

(** The trace of [train]: [begin_epoch], the batch loop and, when the
    loop returns, the end-of-epoch summary and [reset_meters]. *)
Lemma train_events args epoch (p : Proc X) :
  exists loop,
    loop_shape args epoch initialized_values
      (is_Returns (outcome (batch_loop args epoch p))) loop /\
    events (train args epoch p)
      = EBeginEpoch epoch :: loop
        ++ (if is_Returns (outcome (batch_loop args epoch p))
            then [EProgressPrint "train"
                    (match outcome (batch_loop args epoch p) with
                     | Returns loc => loc_num_updates loc
                     | Raises _ => 0
                     end);
                  EResetMeters "train"]
            else []) /\
    (is_Returns (outcome (train args epoch p)) = true ->
     is_Returns (outcome (batch_loop args epoch p)) = true).
Proof.
  exists (events (batch_loop args epoch p)).
  split; [apply train_loop_has_shape|]. split; [apply train_trace|].
  rewrite train_outcome.
  destruct (outcome (batch_loop args epoch p)); [reflexivity | discriminate].
Qed.

Lemma train_scan_preceded P Q args epoch (p : Proc X) :
  P (EBeginEpoch epoch) = false ->
  (forall n, P (EProgressPrint "train" n) = false) ->
  P (EResetMeters "train") = false ->
  (forall returns ev prev,
     iteration_shape args epoch initialized_values returns ev ->
     each_preceded P Q prev ev = true) ->
  each_preceded P Q None (events (train args epoch p)) = true.
Proof.
  intros Hbegin Hprint Hreset Hit.
  destruct (train_events args epoch p) as (loop & Hloop & -> & _).
  cbn [each_preceded]. rewrite Hbegin. cbn [andb].
  rewrite each_preceded_app.
  rewrite (loop_each_preceded _ _ _ _ _ Hit _ _ _ Hloop). cbn [andb].
  apply each_preceded_none.
  destruct (is_Returns _); repeat constructor; auto.
Qed.

Lemma train_each_preceded P Q args epoch (p : Proc X) :
  P (EBeginEpoch epoch) = false ->
  (forall n, P (EProgressPrint "train" n) = false) ->
  P (EResetMeters "train") = false ->
  (forall returns ev prev,
     iteration_shape args epoch initialized_values returns ev ->
     each_preceded P Q prev ev = true) ->
  immediately_preceded P Q (events (train args epoch p)).
Proof.
  intros Hbegin Hprint Hreset Hit.
  now apply each_preceded_sound, train_scan_preceded.
Qed.

Lemma train_each_followed P Q args epoch (p : Proc X) :
  P (EBeginEpoch epoch) = false ->
  (forall n, P (EProgressPrint "train" n) = false) ->
  P (EResetMeters "train") = false ->
  (forall returns ev,
     iteration_shape args epoch initialized_values returns ev ->
     each_followed P Q ev = true) ->
  immediately_followed P Q (events (train args epoch p)).
Proof.
  intros Hbegin Hprint Hreset Hit. apply each_followed_sound.
  destruct (train_events args epoch p) as (loop & Hloop & -> & _).
  apply (each_followed_app _ _ [EBeginEpoch epoch]);
    [cbn; now rewrite Hbegin|].
  apply each_followed_app.
  - exact (loop_each_followed _ _ _ _ _ Hit _ _ Hloop).
  - apply each_followed_none.
    destruct (is_Returns _); repeat constructor; auto.
Qed.

(** C2, as the code has it: in an epoch that [train] completes there are
    as many [validate] calls and as many [save_checkpoint] calls as steps
    that were not skipped, each validation starting directly after its
    step (or the mid-epoch log of that step), its end directly followed
    by a write, each write coming directly after the end of a validation
    and carrying that epoch.  A
    [save_checkpoint] call changes the file of an epoch only if it is
    the epoch of the call and [save_interval] divides it. *)
Theorem validate_and_save_follow_every_step args epoch (p : Proc X) :
  is_Returns (outcome (train args epoch p)) = true ->
  (count is_validate (events (train args epoch p))
     = count is_trained_step (events (train args epoch p)) /\
   count is_save (events (train args epoch p))
     = count is_trained_step (events (train args epoch p)) /\
   Forall (saves_epoch epoch) (events (train args epoch p)) /\
   immediately_preceded is_validate is_step_or_reset
     (events (train args epoch p)) /\
   immediately_followed is_valid_summary is_save
     (events (train args epoch p)) /\
   immediately_preceded is_save is_valid_summary
     (events (train args epoch p))) /\
  (forall run score d e,
     CheckpointManager.load_checkpoint (CheckpointManager.EpochPath e)
       (CheckpointManager.save_checkpoint args run score d)
     <> CheckpointManager.load_checkpoint (CheckpointManager.EpochPath e) d ->
     e = CheckpointManager.epoch run /\ (save_interval args | e)).
Proof.
  intros Hret.
  split; [|intros run score d e; apply save_checkpoint_only_retained].
  pose proof (train_each_preceded is_validate is_step_or_reset args epoch p
                eq_refl (fun _ => eq_refl) eq_refl
                (iteration_validate_after_step args epoch _)) as Hval.
  pose proof (train_each_preceded is_save is_valid_summary args epoch p
                eq_refl (fun _ => eq_refl) eq_refl
                (iteration_save_after_validation args epoch _)) as Hsave.
  destruct (train_events args epoch p) as (loop & Hloop & Hev & Hcomplete).
  rewrite (Hcomplete Hret) in Hloop, Hev. rewrite Hev in *.
  destruct (loop_counts _ _ _ _ Hloop) as [Hv Hs].
  cbn [count is_validate is_save is_trained_step].
  rewrite !count_app. cbn. repeat split; try lia; try assumption.
  - constructor; [exact I|]. apply Forall_app. split.
    + eapply loop_saves_epoch, Hloop.
    + repeat constructor.
  - apply each_followed_sound.
    apply (each_followed_app _ _ [EBeginEpoch epoch]); [reflexivity|].
    apply each_followed_app; [|reflexivity].
    eapply loop_save_follows_validation, Hloop.
Qed.


Lemma iteration_log_count args epoch i samples loc (p : Proc X) :
  count is_progress_log (events (train_iteration args epoch i samples loc p))
  = if log_due args samples (ext p) then 1%nat else 0%nat.
Proof.
  rewrite train_iteration_spec. unfold iteration_result, inner_step, log_due.
  destruct (train_step samples _) as [[log_output|] x2]; cbn -[validate];
    [|reflexivity].
  destruct (log_interval args =? 0); [reflexivity|]. cbn [negb andb].
  set (n := get_num_updates _).
  set (p4 := if n mod log_interval args =? 0 then _ else _).
  destruct (validate_events args epoch p4) as (inner & Hev & Hinner & _).
  assert (Hnone : count is_progress_log (events (validate args epoch p4))
                  = 0%nat).
  { rewrite Hev. cbn. apply count_none. inner_events Hinner. }
  destruct (validate args epoch p4) as [[[v|e] p5] ev]; cbn in Hnone |- *;
    destruct (n mod log_interval args =? 0); cbn;
    rewrite ?count_app, Hnone; cbn;
    try destruct (is_initialized _); reflexivity.
Qed.


(** One turn of the [while] loop of [main] in closed form. *)
Lemma main_loop_step fuel args epoch_idx (p : Proc X) :
  epoch_idx <= max_epoch args ->
  main_loop (S fuel) args epoch_idx p =
    match train args epoch_idx p with
    | (Returns valid_losses, p1, ev) =>
        match subscript0 valid_losses with
        | Returns v0 =>
            let r := main_loop fuel args epoch_idx
                       {| ext := snd (lr_step epoch_idx v0 (ext p1));
                          best := best p1 |} in
            (outcome r, final r, ev ++ ELrStep epoch_idx v0 :: events r)
        | Raises e => (Raises e, p1, ev)
        end
    | (Raises e, p1, ev) => (Raises e, p1, ev)
    end.
Proof.
  intros Hle. apply Z.leb_le in Hle. cbn [main_loop]. rewrite Hle.
  unfold mbind, M_bind, bind.
  destruct (train args epoch_idx p) as [[[valid_losses|e] p1] ev];
    [|reflexivity].
  destruct (subscript0 valid_losses) as [v0|e]; cbn -[main_loop];
    [|now rewrite app_nil_r].
  unfold call. cbn -[main_loop].
  destruct (lr_step epoch_idx v0 (ext p1)) as [lr x]. cbn -[main_loop].
  destruct (main_loop fuel args epoch_idx _) as [[r q] ev']. reflexivity.
Qed.

(** When the batch loop returns, either every step was skipped and the
    local variables are as before, or [valid_loss] is what the last
    [validate] call returned. *)
Lemma train_loop_last_validate args epoch progress :
  forall i loc (p : Proc X) loc',
    outcome (train_loop args epoch i progress loc p) = Returns loc' ->
    (loc' = loc /\
     Forall (fun ev => is_validate ev = false)
       (events (train_loop args epoch i progress loc p))) \/
    exists q pre post v,
      events (train_loop args epoch i progress loc p)
        = pre ++ events (validate args epoch q) ++ post /\
      Forall (fun ev => is_validate ev = false) post /\
      outcome (validate args epoch q) = Returns v /\
      loc_valid_loss loc' = Some v.
Proof.
  induction progress as [|samples rest IH]; intros i loc p loc' Hret.
  - left. cbn in Hret. injection Hret as <-. split; [reflexivity|constructor].
  - rewrite train_loop_cons in Hret |- *.
    unfold iteration_result, inner_step in Hret |- *.
    destruct (train_step samples _) as [[log_output|] x2];
      cbn -[validate] in Hret |- *.
    + destruct (log_interval args =? 0); [discriminate|].
      set (n := get_num_updates _) in *.
      set (p4 := if n mod log_interval args =? 0
                 then {| ext := _; best := _ |} else _) in *.
      set (logged := if n mod log_interval args =? 0
                     then [_; _] else []) in *.
      destruct (validate args epoch p4) as [[[v|e] p5] ev] eqn:Hval;
        [|discriminate].
      cbn -[validate] in Hret |- *. right.
      destruct (IH _ _ _ _ Hret) as [[-> Hnone] | (q & pre & post & v' & Hev
                                                   & Hpost & Hq & Hloc)].
      * exists p4, (ETrainStep i false :: logged),
          (ESaveCheckpoint epoch v
           :: (if is_initialized (save_checkpoint args epoch v (ext p5))
               then [EBarrier] else [])
           ++ events (train_loop args epoch (S i) rest
                        {| loc_num_updates := n; loc_valid_loss := Some v |}
                        {| ext := if is_initialized
                                       (save_checkpoint args epoch v (ext p5))
                                  then barrier
                                         (save_checkpoint args epoch v (ext p5))
                                  else save_checkpoint args epoch v (ext p5);
                           best := best p5 |})), v.
        rewrite Hval. cbn [events outcome fst snd]. repeat split.
        -- cbn. rewrite <- !app_assoc. reflexivity.
        -- constructor; [reflexivity|]. apply Forall_app. split; [|exact Hnone].
           destruct (is_initialized _); repeat constructor.
      * exists q, ((ETrainStep i false :: logged ++ ev
                    ++ ESaveCheckpoint epoch v
                    :: (if is_initialized
                             (save_checkpoint args epoch v (ext p5))
                        then [EBarrier] else [])) ++ pre), post, v'.
        repeat split; try assumption.
        rewrite Hev. cbn. rewrite <- !app_assoc. reflexivity.
    + destruct (IH _ _ _ _ Hret) as [[-> Hnone] | (q & pre & post & v' & Hev
                                                   & Hpost & Hq & Hloc)].
      * left. split; [reflexivity|]. constructor; [reflexivity | exact Hnone].
      * right. exists q, (ETrainStep i true :: pre), post, v'.
        repeat split; try assumption. rewrite Hev. reflexivity.
Qed.

Lemma validate_returns_auroc args epoch (q : Proc X) v :
  outcome (validate args epoch q) = Returns v ->
  has_post_validate (validation_pass epoch (ext q)) = false ->
  validation_stats epoch (ext q) !! "auroc" = Some v.
Proof.
  rewrite validate_spec. unfold validate_result, valid_stats_result.
  fold (validation_stats epoch (ext q)).
  rewrite lookup_insert_ne by discriminate.
  destruct (validation_stats epoch (ext q) !! "auroc") as [a|] eqn:Ha;
    [|discriminate].
  destruct (py_max a _) as [b|e]; [|discriminate].
  cbn [ext]. intros Hret Hhook. rewrite Hhook in Hret. cbn in Hret.
  rewrite !lookup_insert_ne, Ha in Hret by discriminate.
  injection Hret as <-. reflexivity.
Qed.


(** An epoch begins once in [train], which does not log the end of
    training. *)
Lemma train_epoch_events args epoch (p : Proc X) :
  count is_begin_epoch (events (train args epoch p)) = 1%nat /\
  Forall (fun ev => is_done ev = false) (events (train args epoch p)) /\
  (forall e, In (EBeginEpoch e) (events (train args epoch p)) -> e = epoch).
Proof.
  destruct (train_events args epoch p) as (loop & Hloop & -> & _).
  destruct (loop_no_summary _ _ _ _ _ Hloop) as (_ & Hbegin & Hdone).
  set (suffix := if is_Returns _ then _ else _).
  assert (Hsuffix : Forall (fun ev => is_begin_epoch ev = false) suffix /\
                    Forall (fun ev => is_done ev = false) suffix).
  { unfold suffix. destruct (is_Returns _); repeat constructor. }
  destruct Hsuffix as (Sbegin & Sdone).
  assert (Hall : Forall (fun ev => is_begin_epoch ev = false) (loop ++ suffix))
    by (apply Forall_app; split; assumption).
  cbn [count is_begin_epoch]. rewrite (count_none _ _ Hall).
  repeat split.
  - constructor; [reflexivity|]. apply Forall_app. split; assumption.
  - intros e [Hin | Hin]; [now injection Hin|].
    rewrite List.Forall_forall in Hall. apply Hall in Hin. discriminate.
Qed.

Lemma main_loop_never_exits args (fuel : nat) : forall p : Proc X,
  1 <= max_epoch args ->
  outcome (main_loop fuel args 1 p) <> Returns (Some tt) /\
  Forall (fun ev => is_done ev = false) (events (main_loop fuel args 1 p)) /\
  (forall e, In (EBeginEpoch e) (events (main_loop fuel args 1 p)) -> e = 1) /\
  (outcome (main_loop fuel args 1 p) = Returns None ->
   count is_begin_epoch (events (main_loop fuel args 1 p)) = fuel).
Proof.
  induction fuel as [|fuel IH]; intros p Hle.
  - cbn [main_loop]. apply Z.leb_le in Hle. rewrite Hle. cbn.
    repeat split; try discriminate; try constructor. intros e [].
  - rewrite (main_loop_step _ _ _ _ Hle).
    destruct (train_epoch_events args 1 p) as (Hone & Hdone & Hbegin).
    destruct (train args 1 p) as [[[valid_losses|e] p1] ev];
      cbn [events snd] in Hone, Hdone, Hbegin.
    + destruct (subscript0 valid_losses) as [v0|e].
      * match goal with
        | |- context [main_loop fuel args 1 ?q] =>
            destruct (IH q Hle) as (Hnot & Hdone' & Hbegin' & Hcount)
        end.
        cbn [outcome final events fst snd]. repeat split.
        -- exact Hnot.
        -- apply Forall_app. split; [exact Hdone|].
           constructor; [reflexivity | exact Hdone'].
        -- intros e0 Hin. apply in_app_or in Hin.
           destruct Hin as [Hin | [Hin | Hin]]; [auto | discriminate | auto].
        -- intros Hret. rewrite count_app. cbn [count is_begin_epoch].
           rewrite Hone, (Hcount Hret). reflexivity.
      * cbn. repeat split; try discriminate; assumption.
    + cbn. repeat split; try discriminate; assumption.
Qed.

(** C1, on the code: whatever [max_epoch >= 1] is, the epoch loop of
    [main] never leaves: [epoch_idx] stays 1, so every epoch that begins
    is epoch 1, the "done training" line is never reached, and a run that
    meets no exception has begun as many epochs as it was given turns,
    beyond any [max_epoch]. *)
Theorem main_epoch_loop_never_exits fuel args (p : Proc X) :
  1 <= max_epoch args ->
  outcome (main fuel args p) <> Returns (Some tt) /\
  ~ In EDoneTraining (events (main fuel args p)) /\
  (forall e, In (EBeginEpoch e) (events (main fuel args p)) -> e = 1) /\
  (outcome (main fuel args p) = Returns None ->
   count is_begin_epoch (events (main fuel args p)) = fuel).
Proof.
  intros Hle. unfold main. unfold mbind, M_bind, bind.
  destruct (main_loop_never_exits args fuel p Hle)
    as (Hnot & Hdone & Hbegin & Hcount).
  destruct (main_loop fuel args 1 p) as [[[[[]|]|e] p1] ev];
    cbn in Hnot, Hdone, Hbegin, Hcount |- *.
  - now destruct Hnot.
  - rewrite app_nil_r. repeat split; try discriminate; try assumption.
    intros Hin. rewrite List.Forall_forall in Hdone.
    apply Hdone in Hin. discriminate.
  - repeat split; try discriminate; try assumption.
    intros Hin. rewrite List.Forall_forall in Hdone.
    apply Hdone in Hin. discriminate.
Qed.

(** C5, as the code has it: a snapshot that [save_checkpoint] writes is
    what [load_checkpoint] restores from the same path, with its epoch,
    update count and best score; the baseline of [get_valid_stats] is
    not part of it: in a process that has just started the first call
    compares the AUROC with 0, whatever was restored. *)
Theorem checkpoint_round_trip_and_fresh_baseline args run score d
    (stats : Stats) a (p : Proc X) :
  CheckpointManager.is_master args = true ->
  CheckpointManager.retained args (CheckpointManager.epoch run) = true ->
  best p = None ->
  stats !! "auroc" = Some (PNum a) ->
  CheckpointManager.load_checkpoint
    (CheckpointManager.EpochPath (CheckpointManager.epoch run))
    (CheckpointManager.save_checkpoint args run score d) = Some run /\
  exists stats',
    outcome (get_valid_stats args stats p) = Returns stats' /\
    stats' !! "best_auroc" = Some (PNum (if Qgtb 0 a then 0%Q else a)).
Proof.
  intros Hm Hr Hfresh Ha. split.
  - now apply save_checkpoint_round_trip.
  - rewrite get_valid_stats_spec. unfold valid_stats_result.
    rewrite lookup_insert_ne by discriminate. rewrite Ha, Hfresh.
    cbn [default py_max py_gt]. destruct (Qgtb 0 a); cbn;
      eexists; (split; [reflexivity | apply lookup_insert_eq]).
Qed.

End Training.

(** ** Reference runs *)

(** C1 on a reference run with [max_epoch = 1]: three turns of the loop
    begin epoch 1 three times and the loop is still running. *)
Lemma main_epoch_loop_never_exits_witness :
  1 <= max_epoch (Ref.args0 1 1 1) /\
  outcome (main 3 (Ref.args0 1 1 1) Ref.one_step) = Returns None /\
  count is_begin_epoch (events (main 3 (Ref.args0 1 1 1) Ref.one_step))
    = 3%nat.
Proof.
  assert (Hle : 1 <= max_epoch (Ref.args0 1 1 1)) by (cbn; lia).
  assert (Hret : outcome (main 3 (Ref.args0 1 1 1) Ref.one_step)
                 = Returns None) by reflexivity.
  split; [exact Hle|]. split; [exact Hret|].
  destruct (main_epoch_loop_never_exits 3 (Ref.args0 1 1 1) Ref.one_step Hle)
    as (_ & _ & _ & Hcount).
  exact (Hcount Hret).
Defined.

(** C2 as stated fails: an epoch with two steps validates twice, and with
    [max_epoch = 3] and [save_interval = 2] three turns of the epoch loop
    leave no checkpoint for epoch 2. *)
Lemma validate_once_per_epoch_counterexample :
  count is_validate (events (train (Ref.args0 3 1 2) 1 Ref.two_steps))
    <> 1%nat /\
  CheckpointManager.load_checkpoint (CheckpointManager.EpochPath 2)
    (Ref.w_dir (ext (final (main 3 (Ref.args0 3 1 2) Ref.one_step)))) = None.
Proof. split; [vm_compute; discriminate | reflexivity]. Qed.

(** C2 on a reference epoch of three batches, the second one skipped. *)
Lemma validate_and_save_follow_every_step_witness :
  is_Returns (outcome (train (Ref.args0 3 1 2) 1 Ref.step_skip_step)) = true /\
  count is_validate (events (train (Ref.args0 3 1 2) 1 Ref.step_skip_step))
    = 2%nat /\
  count is_save (events (train (Ref.args0 3 1 2) 1 Ref.step_skip_step))
    = count is_trained_step
        (events (train (Ref.args0 3 1 2) 1 Ref.step_skip_step)).
Proof.
  assert (Hret : is_Returns
                   (outcome (train (Ref.args0 3 1 2) 1 Ref.step_skip_step))
                 = true) by reflexivity.
  split; [exact Hret|]. split; [reflexivity|].
  destruct (validate_and_save_follow_every_step (Ref.args0 3 1 2) 1
              Ref.step_skip_step Hret) as [(_ & Hsave & _) _].
  exact Hsave.
Defined.



Lemma ref_skip_contract : skip_contract (X := Ref.World).
Proof.
  split; [|split].
  - intros [[] a] x x' Hstep; cbn in Hstep; unfold Ref.ref_train_step in Hstep;
      cbn in Hstep; [discriminate|].
    injection Hstep as <-. split; reflexivity.
  - intros name x. split; reflexivity.
  - intros name x. split; reflexivity.
Defined.

(** C4 on a reference epoch whose first batch is skipped. *)
Lemma skipped_step_is_not_logged_witness :
  fst (train_step (Ref.batch false 0.5)
         (aggregate_enter "train_inner" (ext Ref.skip_then_step))) = None /\
  exists p',
    train_iteration (Ref.args0 1 1 1) 1 0 (Ref.batch false 0.5)
      {| loc_num_updates := 0; loc_valid_loss := None |} Ref.skip_then_step
      = (Returns {| loc_num_updates := 0; loc_valid_loss := None |}, p',
         [ETrainStep 0 true]) /\
    get_num_updates (ext p') = 0.
Proof.
  assert (Hskip : fst (train_step (Ref.batch false 0.5)
            (aggregate_enter "train_inner" (ext Ref.skip_then_step))) = None)
    by reflexivity.
  split; [exact Hskip|].
  destruct (skipped_step_is_not_logged (Ref.args0 1 1 1) 1 0
              (Ref.batch false 0.5) [Ref.batch true 0.5]
              {| loc_num_updates := 0; loc_valid_loss := None |}
              Ref.skip_then_step Hskip)
    as (p' & Hit & _ & _ & _ & Hcontract).
  exists p'. split; [exact Hit|].
  destruct (Hcontract ref_skip_contract) as [Hn _]. exact Hn.
Defined.

(** C5 as stated fails: a [save_checkpoint] call for epoch 1 with
    [save_interval = 2] is skipped, so nothing is there to load; and
    after a validation with AUROC 0.9, a checkpoint write, a restart and
    a reload, the run's best score is back at 0.9, but [get_valid_stats]
    reports 0.5 as the best for an AUROC of 0.5: its baseline started
    again at 0. *)
Lemma best_baseline_after_restart_counterexample :
  CheckpointManager.load_checkpoint (CheckpointManager.EpochPath 1)
    (CheckpointManager.save_checkpoint (Ref.args0 3 1 2)
       {| CheckpointManager.epoch := 1;
          CheckpointManager.num_updates := 10;
          CheckpointManager.best_score := 0.9%Q |}
       0.9%Q CheckpointManager.empty_dir) = None /\
  best Ref.validated = Some (PNum 0.9) /\
  Ref.w_best_score (ext Ref.reloaded) = 0.9%Q /\
  exists stats',
    outcome (get_valid_stats (Ref.args0 3 1 1) {["auroc" := PNum 0.5]}
               Ref.reloaded) = Returns stats' /\
    stats' !! "best_auroc" = Some (PNum 0.5) /\
    stats' !! "best_auroc" <> Some (PNum 0.9).
Proof.
  split; [reflexivity|]. split; [reflexivity|]. split; [reflexivity|].
  eexists. split; [reflexivity|]. split; [reflexivity|].
  vm_compute. discriminate.
Qed.

(** C5 on the reference process that reloaded the checkpoint. *)
Lemma checkpoint_round_trip_and_fresh_baseline_witness :
  CheckpointManager.is_master (Ref.args0 3 1 2) = true /\
  CheckpointManager.retained (Ref.args0 3 1 2) 2 = true /\
  best Ref.reloaded = None /\
  ({["auroc" := PNum 0.5]} : Stats) !! "auroc" = Some (PNum 0.5) /\
  CheckpointManager.load_checkpoint (CheckpointManager.EpochPath 2)
    (CheckpointManager.save_checkpoint (Ref.args0 3 1 2)
       {| CheckpointManager.epoch := 2;
          CheckpointManager.num_updates := 10;
          CheckpointManager.best_score := 0.9%Q |}
       0.9%Q CheckpointManager.empty_dir)
  = Some {| CheckpointManager.epoch := 2;
            CheckpointManager.num_updates := 10;
            CheckpointManager.best_score := 0.9%Q |} /\
  exists stats',
    outcome (get_valid_stats (Ref.args0 3 1 2) {["auroc" := PNum 0.5]}
               Ref.reloaded) = Returns stats' /\
    stats' !! "best_auroc" = Some (PNum 0.5).
Proof.
  repeat (split; [reflexivity|]).
  apply (checkpoint_round_trip_and_fresh_baseline (Ref.args0 3 1 2)
           {| CheckpointManager.epoch := 2;
              CheckpointManager.num_updates := 10;
              CheckpointManager.best_score := 0.9%Q |}
           0.9%Q CheckpointManager.empty_dir {["auroc" := PNum 0.5]} 0.5%Q
           Ref.reloaded);
    reflexivity.
Defined.


(** C8 on a reference epoch whose two batches are both skipped. *)
Lemma train_returns_only_after_a_step_witness :
  (forall i, ~ In (ETrainStep i false)
     (events (train (Ref.args0 1 1 1) 1 Ref.all_skipped))) /\
  outcome (train (Ref.args0 1 1 1) 1 Ref.all_skipped)
    = Raises (UnboundLocalError "valid_loss").
Proof.
  assert (Hno : forall i, ~ In (ETrainStep i false)
     (events (train (Ref.args0 1 1 1) 1 Ref.all_skipped))).
  { intros i Hin. vm_compute in Hin.
    repeat (destruct Hin as [Hin | Hin]; [discriminate|]). exact Hin. }
  split; [exact Hno|].
  destruct (train_returns_only_after_a_step (Ref.args0 1 1 1) 1
              Ref.all_skipped) as (_ & Hskipped & _).
  exact (Hskipped Hno).
Defined.

(** C9 on a reference run whose validation iterator is empty: the
    aggregated mapping is empty and [validate] raises. *)
Lemma validate_raises_without_auroc_witness :
  validation_stats 1 (ext Ref.nothing_to_validate) !! "auroc" = None /\
  outcome (validate (Ref.args0 1 1 1) 1 Ref.nothing_to_validate)
    = Raises (KeyError "auroc").
Proof.
  split; [reflexivity|].
  apply (validate_raises_without_auroc (Ref.args0 1 1 1) 1
           Ref.nothing_to_validate).
  reflexivity.
Defined.


(** * Failure and edge behaviour of train.py *)

Section Statistics.
Context {X Sample : Type} `{!Collaborators X Sample}.

(** X2: a [get_valid_stats] call that raises (no "auroc" entry, or values
    that do not compare) does not advance the best value, but it has
    created it: afterwards the function holds the value it held before,
    or 0 when it held none.  Without an "auroc" entry the call raises
    [KeyError]. *)
Theorem get_valid_stats_failure_keeps_baseline args (stats : Stats)
    (p : Proc X) :
  (is_Returns (outcome (get_valid_stats args stats p)) = false ->
   best (final (get_valid_stats args stats p))
     = Some (default (PNum 0) (best p)) /\
   ext (final (get_valid_stats args stats p)) = ext p) /\
  (stats !! "auroc" = None ->
   outcome (get_valid_stats args stats p) = Raises (KeyError "auroc")).
Proof.
  rewrite get_valid_stats_spec. unfold valid_stats_result.
  rewrite lookup_insert_ne by discriminate.
  destruct (stats !! "auroc") as [auroc|].
  - destruct (py_max auroc _) as [b|e]; cbn.
    + split; [discriminate | discriminate].
    + split; [split; reflexivity | discriminate].
  - cbn. split; [split; reflexivity | reflexivity].
Qed.

End Statistics.

Section Epochs.
Context {X Sample : Type} `{!Collaborators X Sample}.

(** With [log_interval = 0] the batch loop gets no further than its
    first step that is not skipped. *)
Lemma train_loop_zero_interval args epoch progress :
  log_interval args = 0 ->
  forall i loc (p : Proc X),
    Forall (fun ev => is_train_step ev = true)
      (events (train_loop args epoch i progress loc p)) /\
    (outcome (train_loop args epoch i progress loc p) = Returns loc /\
     (forall j, ~ In (ETrainStep j false)
                  (events (train_loop args epoch i progress loc p))) \/
     outcome (train_loop args epoch i progress loc p)
       = Raises ZeroDivisionError /\
     exists j, In (ETrainStep j false)
                 (events (train_loop args epoch i progress loc p))).
Proof.
  intros Hzero.
  induction progress as [|samples rest IH]; intros i loc p.
  - split; [constructor | left; split; [reflexivity | intros j []]].
  - rewrite train_loop_cons. unfold iteration_result, inner_step.
    destruct (train_step samples _) as [[log_output|] x2]; cbn -[validate].
    + rewrite Hzero. cbn. split; [repeat constructor|].
      right. split; [reflexivity|]. exists i. left. reflexivity.
    + destruct (IH (S i) loc
                  {| ext := aggregate_exit "train_inner" x2;
                     best := best p |}) as [Hall Hout].
      split; [constructor; [reflexivity | exact Hall]|].
      destruct Hout as [[Hret Hno] | [Hraise [j Hj]]].
      * left. split; [exact Hret|].
        intros j [Hj | Hj]; [discriminate | exact (Hno j Hj)].
      * right. split; [exact Hraise|]. exists j. right. exact Hj.
Qed.

(** X5: with [log_interval = 0] [train] never returns: the first step
    that is not skipped raises [ZeroDivisionError] at
    [num_updates % args.log_interval], before any validation or
    checkpoint write, and an epoch whose steps are all skipped ends in
    [UnboundLocalError]. *)
Theorem train_never_returns_with_zero_log_interval args epoch (p : Proc X) :
  log_interval args = 0 ->
  count is_validate (events (train args epoch p)) = 0%nat /\
  count is_save (events (train args epoch p)) = 0%nat /\
  ((exists i, In (ETrainStep i false) (events (train args epoch p))) /\
   outcome (train args epoch p) = Raises ZeroDivisionError \/
   (forall i, ~ In (ETrainStep i false) (events (train args epoch p))) /\
   outcome (train args epoch p) = Raises (UnboundLocalError "valid_loss")).
Proof.
  intros Hzero. rewrite train_outcome, train_trace. unfold batch_loop.
  set (x0 := aggregate_enter "train" (ext p)).
  set (p1 := {| ext := begin_epoch epoch x0; best := best p |}).
  set (loc0 := {| loc_num_updates := get_num_updates (ext p1);
                  loc_valid_loss := None |}).
  destruct (train_loop_zero_interval args epoch (iterator x0) Hzero 0 loc0 p1)
    as [Hall Hout].
  set (summary := if is_Returns _ then _ else _).
  assert (Hsummary :
            Forall (fun ev => is_validate ev = false /\ is_save ev = false
                              /\ is_train_step ev = false) summary)
    by (unfold summary; destruct (is_Returns _); repeat constructor).
  assert (Hloop :
            Forall (fun ev => is_validate ev = false /\ is_save ev = false)
              (events (train_loop args epoch 0 (iterator x0) loc0 p1))).
  { eapply List.Forall_impl; [|exact Hall].
    intros [] Hev; cbn in Hev |- *; try discriminate; split; reflexivity. }
  split; [|split].
  - cbn [count is_validate]. rewrite count_app.
    rewrite !count_none; [reflexivity | |].
    + eapply List.Forall_impl; [|exact Hsummary]. now intros ev (H1 & _).
    + eapply List.Forall_impl; [|exact Hloop]. now intros ev (H1 & _).
  - cbn [count is_save]. rewrite count_app.
    rewrite !count_none; [reflexivity | |].
    + eapply List.Forall_impl; [|exact Hsummary]. now intros ev (_ & H2 & _).
    + eapply List.Forall_impl; [|exact Hloop]. now intros ev (_ & H2).
  - destruct Hout as [[Hret Hno] | [Hraise [j Hj]]].
    + right. rewrite Hret. cbn. split; [|reflexivity].
      intros j [Hj | Hj]; [discriminate|].
      apply in_app_or in Hj. destruct Hj as [Hj | Hj]; [exact (Hno j Hj)|].
      rewrite List.Forall_forall in Hsummary.
      destruct (Hsummary _ Hj) as (_ & _ & Hstep). discriminate.
    + left. rewrite Hraise. split; [|reflexivity].
      exists j. right. apply in_or_app. left. exact Hj.
Qed.

(** X9: [main] gets to "done training" exactly when [max_epoch < 1]; it
    then runs no epoch at all: it changes nothing and only logs that
    line. *)
Theorem main_finishes_iff_no_epoch fuel args (p : Proc X) :
  (outcome (main fuel args p) = Returns (Some tt) <-> max_epoch args < 1) /\
  (max_epoch args < 1 ->
   main fuel args p = (Returns (Some tt), p, [EDoneTraining])).
Proof.
  assert (Hnone : max_epoch args < 1 ->
                  main fuel args p = (Returns (Some tt), p, [EDoneTraining])).
  { intros Hlt. unfold main. unfold mbind, M_bind, bind.
    assert (Hloop : main_loop fuel args 1 p = (Returns (Some tt), p, [])).
    { destruct fuel; cbn [main_loop];
        (destruct (Z.leb_spec 1 (max_epoch args)); [lia | reflexivity]). }
    rewrite Hloop. reflexivity. }
  split; [|exact Hnone]. split.
  - intros Hdone. destruct (Z.lt_ge_cases (max_epoch args) 1) as [Hlt | Hge];
      [exact Hlt|].
    exfalso. unfold main in Hdone. unfold mbind, M_bind, bind in Hdone.
    destruct (main_loop_never_exits args fuel p Hge) as (Hnot & _).
    destruct (main_loop fuel args 1 p) as [[[[[]|]|e] p1] ev];
      cbn in Hnot, Hdone; [now destruct Hnot | discriminate | discriminate].
  - intros Hlt. now rewrite (Hnone Hlt).
Qed.

End Epochs.

(** ** Reference runs for the edge behaviour *)

(** X2 on a reference process that has not validated before: a call
    without "auroc" raises and leaves the best value at 0. *)
Lemma get_valid_stats_failure_keeps_baseline_witness :
  ({["loss" := PNum 0.3]} : Stats) !! "auroc" = None /\
  outcome (get_valid_stats (Ref.args0 1 1 1) {["loss" := PNum 0.3]} Ref.idle)
    = Raises (KeyError "auroc") /\
  best (final (get_valid_stats (Ref.args0 1 1 1) {["loss" := PNum 0.3]}
                 Ref.idle)) = Some (PNum 0).
Proof.
  assert (Hnone : ({["loss" := PNum 0.3]} : Stats) !! "auroc" = None)
    by reflexivity.
  destruct (get_valid_stats_failure_keeps_baseline (Ref.args0 1 1 1)
              {["loss" := PNum 0.3]} Ref.idle) as [Hkeep Hraise].
  split; [exact Hnone|]. split; [exact (Hraise Hnone)|].
  destruct (Hkeep eq_refl) as [Hbest _]. exact Hbest.
Defined.

(** X5 on a reference epoch with [log_interval = 0]. *)
Lemma train_never_returns_with_zero_log_interval_witness :
  log_interval (Ref.args0 1 0 1) = 0 /\
  count is_validate (events (train (Ref.args0 1 0 1) 1 Ref.skip_then_step))
    = 0%nat /\
  outcome (train (Ref.args0 1 0 1) 1 Ref.skip_then_step)
    = Raises ZeroDivisionError.
Proof.
  assert (Hzero : log_interval (Ref.args0 1 0 1) = 0) by reflexivity.
  destruct (train_never_returns_with_zero_log_interval (Ref.args0 1 0 1) 1
              Ref.skip_then_step Hzero) as (Hval & _ & _).
  split; [exact Hzero|]. split; [exact Hval | reflexivity].
Defined.

(** X9 on a reference run with [max_epoch = 0]. *)
Lemma main_finishes_iff_no_epoch_witness :
  max_epoch (Ref.args0 0 1 1) < 1 /\
  main 5 (Ref.args0 0 1 1) Ref.one_step
    = (Returns (Some tt), Ref.one_step, [EDoneTraining]).
Proof.
  assert (Hlt : max_epoch (Ref.args0 0 1 1) < 1) by (cbn; lia).
  split; [exact Hlt|].
  destruct (main_finishes_iff_no_epoch 5 (Ref.args0 0 1 1) Ref.one_step)
    as [_ Hdone].
  exact (Hdone Hlt).
Defined.
